(** * Employee analytics dashboard: filtering and aggregation

    A shallow embedding of [dashboard.py].  The script is a single
    Streamlit render pass: it reads an uploaded table, derives two
    selectors, filters the table, and feeds seven charts and four metric
    cards.  Data frames are modelled row-major, cells are dynamically
    typed as pandas has them after [read_csv] (string, number or missing;
    a column of [True]/[False] is not covered), exceptions are an explicit
    result type, and the frames the script binds to names live in a heap
    so that rebinding is visible and mutation would be.

    A numeric cell is the rational its text denotes, and counts and means
    are taken exactly.  The correlation routine is embedded in binary64,
    operation by operation, since its rounding shows in the matrix.  NaN
    is a value of its own. *)

From Stdlib Require Import Floats.
From Stdlib Require Import QArith Lra Lia Psatz.
From stdpp Require Import base option list strings gmap sorting pretty.

Local Open Scope string_scope.

(** ** Cells, exceptions and results *)

Inductive value : Type :=
  | VStr (s : string)
  | VNum (q : Q)
  | VNaN.

Inductive exn : Type :=
  | KeyError (key : string)
  | TypeError
  | ValueError.

Inductive result (A : Type) : Type :=
  | Ok (a : A)
  | Raise (e : exn).
Arguments Ok {A} a.
Arguments Raise {A} e.

#[export] Instance result_ret : MRet result := λ A a, Ok a.
#[export] Instance result_bind : MBind result := λ A B f m,
  match m with
  | Ok a => f a
  | Raise e => Raise e
  end.

(** Python's [==] on two cells: NaN equals nothing, itself included. *)
Definition py_eq (a b : value) : bool :=
  match a, b with
  | VStr s, VStr t => String.eqb s t
  | VNum p, VNum q => Qeq_bool p q
  | _, _ => false
  end.

Definition py_ne (a b : value) : bool := negb (py_eq a b).

(** The identity pandas hashes on: as [py_eq], but all NaN are one value. *)
Definition same_value (a b : value) : bool :=
  match a, b with
  | VNaN, VNaN => true
  | _, _ => py_eq a b
  end.

Definition isna (v : value) : bool :=
  match v with VNaN => true | _ => false end.

Definition notna (v : value) : bool := negb (isna v).

(** ** Data frames *)

Definition row : Type := list value.

Record DataFrame : Type := mkDataFrame {
  columns : list string;
  rows : list row
}.

Fixpoint column_index (c : string) (cols : list string) : option nat :=
  match cols with
  | [] => None
  | c' :: cols' =>
      if String.eqb c c' then Some 0%nat
      else S <$> column_index c cols'
  end.

(** A row shorter than the header is padded with NaN, as the reader does. *)
Definition cell (i : nat) (r : row) : value := nth i r VNaN.

(** [df[c]]: the column as a series, [KeyError] when there is none. *)
Definition getitem (df : DataFrame) (c : string) : result (list value) :=
  match column_index c (columns df) with
  | Some i => Ok (cell i <$> rows df)
  | None => Raise (KeyError c)
  end.

(** [series == v], element by element. *)
Definition series_eq (s : list value) (v : value) : list bool :=
  (λ x, py_eq x v) <$> s.

(** Rows of a frame selected by a boolean mask of the same length. *)
Fixpoint mask_rows (rs : list row) (mask : list bool) : list row :=
  match rs, mask with
  | r :: rs', b :: mask' =>
      if b then r :: mask_rows rs' mask' else mask_rows rs' mask'
  | _, _ => []
  end.

(** ** The heap of frames *)

Abbreviation loc := nat (only parsing).
Abbreviation heap := (gmap loc DataFrame) (only parsing).

Definition HeapM (A : Type) : Type := heap → result (A * heap).

#[export] Instance heap_ret : MRet HeapM := λ A a h, Ok (a, h).
#[export] Instance heap_bind : MBind HeapM := λ A B f m h,
  match m h with
  | Ok (a, h') => f a h'
  | Raise e => Raise e
  end.

Definition alloc (df : DataFrame) : HeapM loc :=
  λ h, let l := fresh (dom h) in Ok (l, <[l := df]> h).

Definition load (l : loc) : HeapM DataFrame :=
  λ h, match h !! l with
       | Some df => Ok (df, h)
       | None => Raise ValueError
       end.

Definition lift {A} (m : result A) : HeapM A :=
  λ h, match m with Ok a => Ok (a, h) | Raise e => Raise e end.

(** [df.copy()]: a new frame with the same content. *)
Definition copy (l : loc) : HeapM loc :=
  df ← load l; alloc df.

(** [df[c]] through a reference; the series is a fresh value. *)
Definition getitem_at (l : loc) (c : string) : HeapM (list value) :=
  df ← load l; lift (getitem df c).

(** [df[mask]]: boolean indexing builds a new frame. *)
Definition getitem_mask (l : loc) (mask : list bool) : HeapM loc :=
  df ← load l;
  alloc {| columns := columns df; rows := mask_rows (rows df) mask |}.

(** ** Sidebar filters (lines 36-45) *)

Definition All : value := VStr "All".

(** The names [df_filtered] is bound to, in turn: the copy, then the
    result of each boolean indexing that is taken. *)
Definition df_filtered (df : loc) (dept_filter gender_filter : value) : HeapM loc :=
  df_filtered ← copy df;
  df_filtered ←
    (if py_ne dept_filter All then
       s ← getitem_at df_filtered "Department";
       getitem_mask df_filtered (series_eq s dept_filter)
     else mret df_filtered);
  df_filtered ←
    (if py_ne gender_filter All then
       s ← getitem_at df_filtered "Gender";
       getitem_mask df_filtered (series_eq s gender_filter)
     else mret df_filtered);
  mret df_filtered.

(** A filter selection is the pair of values the two selectors returned. *)
Record FilterSelection : Type := mkSelection {
  sel_department : value;
  sel_gender : value
}.

(** Running a computation from the empty heap. *)
Definition run {A} (m : HeapM A) : result A :=
  match m ∅ with
  | Ok (a, _) => Ok a
  | Raise e => Raise e
  end.

(** The filtering pass on a table: the table is loaded as [df], the pass
    is run, and the frame [df_filtered] ends up bound to is read back. *)
Definition applyFilters (table : DataFrame) (sel : FilterSelection) : result DataFrame :=
  run (df ← alloc table;
       l ← df_filtered df (sel_department sel) (sel_gender sel);
       load l).

(** ** Selectors (lines 36-37) *)

(** [Series.unique()]: first occurrences, in order of appearance. *)
Fixpoint unique (s : list value) : list value :=
  match s with
  | [] => []
  | x :: s' => x :: List.filter (λ y, negb (same_value x y)) (unique s')
  end.

(** Python's [<] on two cells.  A string against a float raises; any
    comparison with NaN is false. *)
Definition py_lt (a b : value) : result bool :=
  match a, b with
  | VStr s, VStr t => Ok (String.ltb s t)
  | VStr _, _ | _, VStr _ => Raise TypeError
  | VNum p, VNum q => Ok (negb (Qle_bool q p))
  | _, _ => Ok false
  end.

(** [sorted], as a stable insertion sort that only asks [<].  On a list
    where [<] is a strict total order every stable sort returns this list;
    a list that mixes strings with floats raises on the first comparison
    across the two.  With NaN among numbers [<] is not total and the order
    Python returns depends on the runs its merge sort finds; that order is
    not modelled. *)
Fixpoint insert_sorted (x : value) (l : list value) : result (list value) :=
  match l with
  | [] => Ok [x]
  | y :: l' =>
      b ← py_lt y x;
      if b : bool then l'' ← insert_sorted x l'; Ok (y :: l'')
      else Ok (x :: y :: l')
  end.

Fixpoint sorted (l : list value) : result (list value) :=
  match l with
  | [] => Ok []
  | x :: l' => s ← sorted l'; insert_sorted x s
  end.

(** [sorted(df[c].unique())] *)
Definition distinctValues (table : DataFrame) (columnName : string) : result (list value) :=
  s ← getitem table columnName;
  sorted (unique s).

(** [["All"] + sorted(df[c].unique())] *)
Definition selector_options (table : DataFrame) (columnName : string) : result (list value) :=
  l ← distinctValues table columnName;
  Ok (All :: l).

(** [st.sidebar.selectbox]: the option the user picked, the first one
    when the pick is out of range. *)
Definition selectbox (options : list value) (choice : nat) : value :=
  nth choice options (hd VNaN options).

(** ** Metric cards (lines 52-55) *)

Definition qsum (l : list Q) : Q := foldr Qplus 0%Q l.

Definition qlen (l : list Q) : Q := inject_Z (Z.of_nat (length l)).

Definition qmean (l : list Q) : Q := (qsum l / qlen l)%Q.

(** The numbers of a series, missing cells skipped.  A text cell is
    taken as what cannot be summed: pandas first joins the texts of an
    all-text column and raises [TypeError] unless the result spells a
    number, a case that is not modelled. *)
Fixpoint numbers (s : list value) : result (list Q) :=
  match s with
  | [] => Ok []
  | VNum q :: s' => l ← numbers s'; Ok (q :: l)
  | VNaN :: s' => numbers s'
  | VStr _ :: _ => Raise TypeError
  end.

(** [Series.mean()]: NaN when no number is left. *)
Definition mean (s : list value) : result value :=
  l ← numbers s;
  match l with
  | [] => Ok VNaN
  | _ => Ok (VNum (qmean l))
  end.

(** [Series.nunique()]: missing cells are not counted. *)
Definition nunique (s : list value) : nat :=
  length (unique (List.filter notna s)).

Definition round_half_even (q : Q) : Z :=
  let n := Qnum q in
  let d := Zpos (Qden q) in
  let f := (n / d)%Z in
  let r2 := (2 * (n mod d))%Z in
  if (r2 <? d)%Z then f
  else if (d <? r2)%Z then (f + 1)%Z
  else if Z.even f then f else (f + 1)%Z.

Definition two_digits (n : Z) : string :=
  (if (n <? 10)%Z then "0" else "") ++ pretty n.

(** The format [:.2f]. *)
Definition format_2f (v : value) : result string :=
  match v with
  | VNaN => Ok "nan"
  | VStr _ => Raise ValueError
  | VNum q =>
      let c := Z.abs (round_half_even (q * 100)) in
      Ok ((if (Qnum q <? 0)%Z then "-" else "")
          ++ pretty (c / 100)%Z ++ "." ++ two_digits (c mod 100)%Z)
  end.

Inductive metric_value : Type :=
  | MInt (n : nat)
  | MStr (s : string).

(** ** Aggregations *)

(** Occurrences of a key in a series. *)
Definition count (k : value) (s : list value) : nat :=
  length (List.filter (same_value k) s).

(** Larger counts first. *)
Definition by_count : relation (value * nat) := λ a b, (b.2 <= a.2)%nat.

#[export] Instance by_count_dec : RelDecision by_count :=
  λ a b, Nat.le_dec b.2 a.2.

(** [Series.value_counts()]: one count per distinct value, missing cells
    dropped (the default [dropna=True]), most frequent first.  The order
    among equal counts is the one of the sort used here; pandas leaves it
    to its own sort. *)
Definition value_counts (s : list value) : list (value * nat) :=
  let s := List.filter notna s in
  merge_sort by_count ((λ k, (k, count k s)) <$> unique s).

Definition of_nat (n : nat) : value := VNum (inject_Z (Z.of_nat n)).

(** [.reset_index()] of a value count: the keys become the column
    [index], the counts keep the name of the series. *)
Definition reset_index_counts (name : string) (vc : list (value * nat)) : DataFrame :=
  {| columns := ["index"; name];
     rows := (λ kc, [kc.1; of_nat kc.2]) <$> vc |}.

(** What a pie chart draws when it is given labels and no values: one
    unit per row, added up by label. *)
Definition pie_sectors (labels : list value) : list (value * nat) :=
  (λ k, (k, count k labels)) <$> unique labels.

(** The order pandas sorts group keys in: numbers, then strings. *)
Definition key_le (a b : value) : bool :=
  match a, b with
  | VNum p, VNum q => Qle_bool p q
  | VNum _, _ => true
  | VStr s, VStr t => String.leb s t
  | VStr _, VNum _ => false
  | VStr _, VNaN => true
  | VNaN, VNaN => true
  | VNaN, _ => false
  end.

Definition key_order : relation value := λ a b, key_le a b = true.

#[export] Instance key_order_dec : RelDecision key_order :=
  λ a b, bool_eq_dec (key_le a b) true.

(** Keys of [groupby]: distinct, missing keys dropped, sorted. *)
Definition group_keys (by_ : list value) : list value :=
  merge_sort key_order (unique (List.filter notna by_)).

(** The cells of [s] on the rows whose key is [k]. *)
Fixpoint group_cells (k : value) (by_ s : list value) : list value :=
  match by_, s with
  | b :: by', v :: s' =>
      if same_value k b then v :: group_cells k by' s' else group_cells k by' s'
  | _, _ => []
  end.

Fixpoint mapM {A B} (f : A → result B) (l : list A) : result (list B) :=
  match l with
  | [] => Ok []
  | a :: l' => b ← f a; bs ← mapM f l'; Ok (b :: bs)
  end.

(** [df.groupby(by)[c].mean().reset_index()] *)
Definition groupby_mean (df : DataFrame) (by_ c : string) : result DataFrame :=
  keys ← getitem df by_;
  s ← getitem df c;
  rs ← mapM (λ k, m ← mean (group_cells k keys s); Ok [k; m]) (group_keys keys);
  Ok {| columns := [by_; c]; rows := rs |}.

(** [series * n] *)
Definition series_mul (s : list value) (n : Q) : result (list value) :=
  mapM (λ v, match v with
             | VNum q => Ok (VNum (q * n))
             | VNaN => Ok VNaN
             | VStr _ => Raise TypeError
             end) s.

Fixpoint set_cell (i : nat) (v : value) (r : row) : row :=
  match i, r with
  | 0%nat, _ :: r' => v :: r'
  | 0%nat, [] => [v]
  | S i', x :: r' => x :: set_cell i' v r'
  | S i', [] => VNaN :: set_cell i' v []
  end.

(** [df[c] = series], for a column the frame has and a series of its
    length. *)
Definition setitem (df : DataFrame) (c : string) (s : list value) : result DataFrame :=
  match column_index c (columns df) with
  | Some i =>
      if bool_decide (length s = length (rows df)) then
        Ok {| columns := columns df;
              rows := zip_with (set_cell i) s (rows df) |}
      else Raise ValueError
  | None => Raise (KeyError c)
  end.

(** [df[cols]]: the frame restricted to a list of columns.  The error
    names the first column that is missing, where pandas names all of them
    in one message. *)
Definition getitem_cols (df : DataFrame) (cols : list string) : result DataFrame :=
  idx ← mapM (λ c, match column_index c (columns df) with
                  | Some i => Ok i
                  | None => Raise (KeyError c)
                  end) cols;
  Ok {| columns := cols; rows := (λ r, (λ i, cell i r) <$> (idx : list nat)) <$> rows df |}.

(** ** Correlation (lines 134-141) *)

Definition num_cols : list string :=
  ["Age"; "TenureMonths"; "PerformanceScore"; "Satisfaction"; "Engagement";
   "Motivation"; "Stress"; "WorkLifeBalance"; "OvertimeHours";
   "TrainingHoursLastYear"; "AbsenteeismDays"; "PeerRating";
   "ManagerRating"; "ProjectLoad"; "LPA_Profile"].

(** A series without a text cell. *)
Definition numeric_series (s : list value) : bool :=
  forallb (λ v, match v with VStr _ => false | _ => true end) s.

(** The type [read_csv] settles on for a column, from all of its cells:
    numbers and blanks are held as numbers, a column with a text cell as
    objects, and so is every column of a table without rows. *)
Inductive dtype : Type :=
  | Numeric
  | Object.

Definition is_numeric (d : dtype) : bool :=
  match d with Numeric => true | Object => false end.

Definition read_dtype (s : list value) : dtype :=
  match s with
  | [] => Object
  | _ :: _ => if numeric_series s then Numeric else Object
  end.

(** The columns of a frame, each with its series. *)
Definition series_of (df : DataFrame) : list (string * list value) :=
  imap (λ i c, (c, cell i <$> rows df)) (columns df).

(** [df.dtypes] of the table as it was read.  [copy] and boolean indexing
    keep the type of every column, so a view has the types of the table it
    was filtered from, whatever rows are left in it. *)
Definition dtypes (table : DataFrame) : list (string * dtype) :=
  (λ cs, (cs.1, read_dtype cs.2)) <$> series_of table.

Fixpoint dtype_of (dts : list (string * dtype)) (c : string) : dtype :=
  match dts with
  | [] => Object
  | (c', d) :: dts' => if String.eqb c c' then d else dtype_of dts' c
  end.

(** An integer as a binary64 number, rounded to nearest, ties to even. *)
Definition float_of_Z (z : Z) : float :=
  SF2Prim (binary_normalize prec emax z 0 false).

(** A number as the binary64 the frame holds for it: exact for an integer
    below 2^53 in magnitude, and for a fraction the numerator divided by
    the denominator, rounded once, which is what the reader computes for a
    number written with one or two decimals. *)
Definition float_of_Q (q : Q) : float :=
  (float_of_Z (Qnum q) / float_of_Z (Zpos (Qden q)))%float.

(** [to_numpy(dtype=float, na_value=nan)] on one cell. *)
Definition to_float (v : value) : float :=
  match v with
  | VNum q => float_of_Q q
  | _ => nan
  end.

(** The running sums pandas keeps for one pair of columns. *)
Record welford : Type := mkWelford {
  nobs : nat;
  meanx : float;
  meany : float;
  ssqdm_x : float;
  ssqdm_y : float;
  covxy : float
}.

Definition welford_zero : welford :=
  {| nobs := 0; meanx := 0; meany := 0; ssqdm_x := 0; ssqdm_y := 0; covxy := 0 |}.

(** One row of the inner loop of [nancorr], as pandas 1.5 has it: a row
    where either cell is not finite is skipped.  Every operation is
    rounded on its own. *)
Definition welford_step (w : welford) (v : float * float) : welford :=
  let vx := v.1 in
  let vy := v.2 in
  if is_finite vx && is_finite vy then
    let n := S (nobs w) in
    let dx := (vx - meanx w)%float in
    let dy := (vy - meany w)%float in
    let mx := (meanx w + 1 / float_of_Z (Z.of_nat n) * dx)%float in
    let my := (meany w + 1 / float_of_Z (Z.of_nat n) * dy)%float in
    {| nobs := n; meanx := mx; meany := my;
       ssqdm_x := (ssqdm_x w + (vx - mx) * dx)%float;
       ssqdm_y := (ssqdm_y w + (vy - my) * dy)%float;
       covxy := (covxy w + (vx - mx) * dy)%float |}
  else w.

(** One entry of the Pearson matrix, with the default of one observation
    at least: NaN without an observation or with a zero divisor. *)
Definition nancorr_entry (xs ys : list float) : float :=
  let w := foldl welford_step welford_zero (zip xs ys) in
  if (nobs w <? 1)%nat then nan
  else
    let divisor := PrimFloat.sqrt (ssqdm_x w * ssqdm_y w) in
    if negb (divisor =? 0)%float then (covxy w / divisor)%float else nan.

(** [nancorr] on the columns of the array: the entry of columns [xi] and
    [yi <= xi] is computed once and written to both places. *)
Definition nancorr (mat : list (list float)) : list (list float) :=
  imap (λ xi x,
    imap (λ yi y,
      if (yi <=? xi)%nat then nancorr_entry x y else nancorr_entry y x) mat) mat.

Record Matrix : Type := mkMatrix {
  labels : list string;
  entries : list (list float)
}.

(** [df.corr()]: the columns that are not numeric are left out (pandas
    before 2.0, which the column names of line 66 require), the others are
    correlated pairwise. *)
Definition corr_of (dts : list (string * dtype)) (df : DataFrame) : Matrix :=
  let cols := List.filter (λ cs, is_numeric (dtype_of dts cs.1)) (series_of df) in
  {| labels := cols.*1;
     entries := nancorr ((λ cs : string * list value, to_float <$> cs.2) <$> cols) |}.

(** [corr = df_filtered[num_cols].corr()], for a view with the column
    types [dts]. *)
Definition corr (dts : list (string * dtype)) (view : DataFrame) : result Matrix :=
  sub ← getitem_cols view num_cols;
  Ok (corr_of dts sub).

(** ** Charts *)

(** A figure is what the script hands to the charting library: the chart
    type, the data and the configuration. *)
Inductive figure : Type :=
  | Bar (data : DataFrame) (x y color : string)
        (axis_labels : list (string * string)) (title : string)
  | Pie (data : DataFrame) (names : string) (title : string)
  | Scatter (data : DataFrame) (x y color size : string)
            (hover_data : list string) (title : string)
  | Histogram (data : DataFrame) (x : string) (nbins : nat) (color : string)
              (title : string)
  | Box (data : DataFrame) (x y color : string) (title : string)
  | Imshow (img : Matrix) (text_auto : bool) (title : string).

(** The charting calls reject a column name the frame does not have. *)
Definition check_columns (df : DataFrame) (cols : list string) : result unit :=
  if forallb (λ c, bool_decide (c ∈ columns df)) cols then Ok ()
  else Raise ValueError.

Definition px_bar (data : DataFrame) (x y color : string)
    (axis_labels : list (string * string)) (title : string) : result figure :=
  _ ← check_columns data [x; y; color];
  Ok (Bar data x y color axis_labels title).

Definition px_pie (data : DataFrame) (names : string) (title : string) : result figure :=
  _ ← check_columns data [names];
  Ok (Pie data names title).

(** A marker size has to be a number that is not negative. *)
Definition valid_size (v : value) : bool :=
  match v with
  | VNum q => Qle_bool 0 q
  | _ => false
  end.

(** The scatter chart scales its markers by the largest size, which a
    text cell does not allow, and then refuses a size that is missing or
    negative. *)
Definition px_scatter (data : DataFrame) (x y color size : string)
    (hover_data : list string) (title : string) : result figure :=
  _ ← check_columns data ([x; y; color; size] ++ hover_data)%list;
  sizes ← getitem data size;
  if negb (numeric_series sizes) then Raise TypeError
  else if forallb valid_size sizes then
    Ok (Scatter data x y color size hover_data title)
  else Raise ValueError.

Definition px_histogram (data : DataFrame) (x : string) (nbins : nat)
    (color : string) (title : string) : result figure :=
  _ ← check_columns data [x; color];
  Ok (Histogram data x nbins color title).

Definition px_box (data : DataFrame) (x y color : string) (title : string) : result figure :=
  _ ← check_columns data [x; y; color];
  Ok (Box data x y color title).

Definition px_imshow (img : Matrix) (text_auto : bool) (title : string) : figure :=
  Imshow img text_auto title.

(** What ends up on the page. *)
Inductive element : Type :=
  | Title (text : string)
  | Write (text : string)
  | FileUploader (label : string)
  | Info (text : string)
  | SidebarHeader (text : string)
  | Selectbox (label : string) (options : list value)
  | Metric (label : string) (v : metric_value)
  | Markdown (text : string)
  | Subheader (text : string)
  | PlotlyChart (fig : figure)
  | Warning (text : string)
  | Success (text : string).

(** ** The render pass *)

(** Lines 50-57 *)
Definition kpi_cards (view : DataFrame) : result (list element) :=
  sat ← getitem view "Satisfaction";
  sat ← mean sat;
  sat ← format_2f sat;
  perf ← getitem view "PerformanceScore";
  perf ← mean perf;
  perf ← format_2f perf;
  prof ← getitem view "LPA_Profile";
  Ok [Metric "Total Employees" (MInt (length (rows view)));
      Metric "Avg Satisfaction" (MStr sat);
      Metric "Avg Performance" (MStr perf);
      Metric "Profiles" (MInt (nunique prof));
      Markdown "---"].

(** Lines 64-70 *)
Definition fig1 (view : DataFrame) : result figure :=
  prof ← getitem view "LPA_Profile";
  px_bar (reset_index_counts "LPA_Profile" (value_counts prof))
    "index" "LPA_Profile" "index"
    [("index", "LPA Profile"); ("LPA_Profile", "Count")]
    "Employees Per Profile".

(** Lines 78-82 *)
Definition fig2 (view : DataFrame) : result figure :=
  px_pie view "Department" "Employee Department Share".

(** Lines 90-98 *)
Definition fig3 (view : DataFrame) : result figure :=
  px_scatter view "PerformanceScore" "Satisfaction" "LPA_Profile" "Engagement"
    ["EmployeeID"; "Department"]
    "Performance vs Satisfaction Colored by Profile".

(** Lines 106-112 *)
Definition fig4 (view : DataFrame) : result figure :=
  px_histogram view "Stress" 20 "Gender" "Stress Distribution".

(** Lines 120-126 *)
Definition fig5 (view : DataFrame) : result figure :=
  px_box view "Department" "WorkLifeBalance" "Department"
    "Work-Life Balance Variation Across Departments".

(** Lines 141-147 *)
Definition fig6 (dts : list (string * dtype)) (view : DataFrame) : result figure :=
  corr ← corr dts view;
  Ok (px_imshow corr true "Correlation Heatmap").

(** Lines 156-157 *)
Definition attr_data (view : DataFrame) : result DataFrame :=
  attr_data ← groupby_mean view "LPA_Profile" "Attrition";
  a ← getitem attr_data "Attrition";
  a ← series_mul a 100;
  setitem attr_data "Attrition" a.

(** Lines 159-166 *)
Definition fig7 (attr_data : DataFrame) : result figure :=
  px_bar attr_data "LPA_Profile" "Attrition" "LPA_Profile"
    [("Attrition", "Attrition (%)")] "Attrition % by Profile".

(** Lines 153-170 *)
Definition visual7 (view : DataFrame) : result (list element) :=
  if bool_decide ("Attrition" ∈ columns view) then
    attr_data ← attr_data view;
    fig7 ← fig7 attr_data;
    Ok [Subheader "7️⃣ Attrition Rate by LPA Profile"; PlotlyChart fig7]
  else
    Ok [Warning "Attrition column not found in dataset."].

(** Lines 59-148: the six charts every pass draws. *)
Definition visuals (dts : list (string * dtype)) (view : DataFrame)
    : result (list element) :=
  fig1 ← fig1 view;
  fig2 ← fig2 view;
  fig3 ← fig3 view;
  fig4 ← fig4 view;
  fig5 ← fig5 view;
  fig6 ← fig6 dts view;
  Ok [Subheader "1️⃣ LPA Profile Distribution"; PlotlyChart fig1;
      Subheader "2️⃣ Department Distribution"; PlotlyChart fig2;
      Subheader "3️⃣ Performance vs Satisfaction"; PlotlyChart fig3;
      Subheader "4️⃣ Stress Level Distribution"; PlotlyChart fig4;
      Subheader "5️⃣ Work-Life Balance by Department"; PlotlyChart fig5;
      Subheader "6️⃣ Correlation Heatmap (Numeric Features)"; PlotlyChart fig6].

(** The page for one uploaded table and one state of the two selectors.
    Without a file the pass stops after the prompt. *)
Definition dashboard (uploaded : option DataFrame) (dept_choice gender_choice : nat)
    : result (list element) :=
  let page :=
    [Title "📊 Employee Profiling & Analytics Dashboard";
     Write "This dashboard provides insights into employee performance, satisfaction, stress levels, and attrition risk.";
     FileUploader "Upload final_dataset.csv"] in
  match uploaded with
  | None =>
      Ok (page ++ [Info "Please upload final_dataset.csv generated from your preprocessing pipeline."])%list
  | Some df =>
      dept_options ← selector_options df "Department";
      let dept_filter := selectbox dept_options dept_choice in
      gender_options ← selector_options df "Gender";
      let gender_filter := selectbox gender_options gender_choice in
      view ← applyFilters df (mkSelection dept_filter gender_filter);
      kpi ← kpi_cards view;
      charts ← visuals (dtypes df) view;
      last ← visual7 view;
      Ok (page
          ++ [SidebarHeader "🔎 Filters";
              Selectbox "Select Department" dept_options;
              Selectbox "Select Gender" gender_options]
          ++ kpi ++ charts ++ last
          ++ [Success "Dashboard Loaded Successfully!"])%list
  end.

(** ** Specification vocabulary *)

(** The cell of a row under a column name, NaN when there is no such
    column. *)
Definition field_of (cols : list string) (c : string) (r : row) : value :=
  match column_index c cols with
  | Some i => cell i r
  | None => VNaN
  end.

(** A row passes a selector: the selector is "All", or the row's cell
    under the column is [==] to the selected value. *)
Definition selects (cols : list string) (c : string) (v : value) (r : row) : bool :=
  if py_ne v All then py_eq (field_of cols c r) v else true.

Definition satisfies (cols : list string) (sel : FilterSelection) (r : row) : bool :=
  selects cols "Department" (sel_department sel) r
  && selects cols "Gender" (sel_gender sel) r.

(** A constrained selector needs its column. *)
Definition filterable (cols : list string) (c : string) (v : value) : Prop :=
  v ≠ All → c ∈ cols.

(** The numbers a series has on the rows whose key is [k]. *)
Fixpoint group_numbers (k : value) (by_ s : list value) : list Q :=
  match by_, s with
  | b :: by', v :: s' =>
      if same_value k b then
        match v with
        | VNum q => q :: group_numbers k by' s'
        | _ => group_numbers k by' s'
        end
      else group_numbers k by' s'
  | _, _ => []
  end.

(** A hundred times the mean of the numbers of group [k], NaN for a group
    without numbers. *)
Definition percent (k : value) (by_ s : list value) : value :=
  match group_numbers k by_ s with
  | [] => VNaN
  | xs => VNum (qmean xs * 100)
  end.










(** A cell Python holds as [str]; the others are floats. *)
Definition is_str (v : value) : bool :=
  match v with VStr _ => true | _ => false end.

(** The charts of a page. *)
Definition is_chart (e : element) : bool :=
  match e with PlotlyChart _ => true | _ => false end.

(** Ascending order of Python strings: by code point, which on UTF-8
    bytes is byte by byte. *)
Definition str_lt (a b : string) : Prop := String.ltb a b = true.

(** ** Sample tables *)

(** Four employees, two departments, with an attrition flag. *)
Definition staff : DataFrame :=
  {| columns := ["EmployeeID"; "Department"; "Gender"; "LPA_Profile";
                 "Satisfaction"; "Stress"; "Attrition"];
     rows := [ [VStr "E1"; VStr "Eng"; VStr "F"; VNum 1; VNum (7 # 2); VNum 2; VNum 1];
               [VStr "E2"; VStr "Eng"; VStr "M"; VNum 0; VNum 4; VNum 3; VNum 0];
               [VStr "E3"; VStr "Sales"; VStr "F"; VNum 1; VNum 3; VNaN; VNum 0];
               [VStr "E4"; VStr "Sales"; VStr "M"; VNum 2; VNum 5; VNum 1; VNum 1] ] |}.

(** The same staff, the profile of the third one left blank. *)
Definition staff_gap : DataFrame :=
  {| columns := ["EmployeeID"; "Department"; "Gender"; "LPA_Profile";
                 "Satisfaction"; "Stress"; "Attrition"];
     rows := [ [VStr "E1"; VStr "Eng"; VStr "F"; VNum 1; VNum (7 # 2); VNum 2; VNum 1];
               [VStr "E2"; VStr "Eng"; VStr "M"; VNum 0; VNum 4; VNum 3; VNum 0];
               [VStr "E3"; VStr "Sales"; VStr "F"; VNaN; VNum 3; VNaN; VNum 0];
               [VStr "E4"; VStr "Sales"; VStr "M"; VNum 2; VNum 5; VNum 1; VNum 1] ] |}.

(** The staff table without the attrition flag. *)
Definition staff_no_attrition : DataFrame :=
  {| columns := ["EmployeeID"; "Department"; "Gender"; "LPA_Profile";
                 "Satisfaction"; "Stress"];
     rows := [ [VStr "E1"; VStr "Eng"; VStr "F"; VNum 1; VNum (7 # 2); VNum 2];
               [VStr "E2"; VStr "Eng"; VStr "M"; VNum 0; VNum 4; VNum 3];
               [VStr "E3"; VStr "Sales"; VStr "F"; VNum 1; VNum 3; VNaN];
               [VStr "E4"; VStr "Sales"; VStr "M"; VNum 2; VNum 5; VNum 1] ] |}.

(** Four survey answers over the fifteen numeric columns; every project
    load is 3, one stress score is missing, and nobody in Sales is male. *)
Definition survey : DataFrame :=
  {| columns :=
       ["EmployeeID"; "Department"; "Gender"; "Age"; "TenureMonths";
        "PerformanceScore"; "Satisfaction"; "Engagement";
        "Motivation"; "Stress"; "WorkLifeBalance"; "OvertimeHours";
        "TrainingHoursLastYear"; "AbsenteeismDays"; "PeerRating";
        "ManagerRating"; "ProjectLoad"; "LPA_Profile"];
     rows := [
       [VStr "E1"; VStr "Eng"; VStr "F"; VNum 30; VNum 12; VNum 4;
        VNum (7 # 2); VNum 4; VNum 3; VNum 2; VNum 3; VNum 5; VNum 10;
        VNum 1; VNum 4; VNum 4; VNum 3; VNum 1];
       [VStr "E2"; VStr "Eng"; VStr "M"; VNum 41; VNum 60; VNum 3;
        VNum 4; VNum 3; VNum 4; VNum 3; VNum (5 # 2); VNum 0; VNum 8;
        VNum 2; VNum 3; VNum 5; VNum 3; VNum 0];
       [VStr "E3"; VStr "Sales"; VStr "F"; VNum 25; VNum 6; VNum 5;
        VNum 3; VNum 5; VNum 5; VNaN; VNum 4; VNum 12; VNum 20; VNum 0;
        VNum 5; VNum 3; VNum 3; VNum 1];
       [VStr "E4"; VStr "Sales"; VStr "F"; VNum 52; VNum 120; VNum 2;
        VNum 5; VNum 2; VNum 2; VNum 1; VNum 2; VNum 7; VNum 4; VNum 6;
        VNum 2; VNum 2; VNum 3; VNum 2] ] |}.

(** Three employees, one of them in a department that is called "All". *)
Definition staff_all : DataFrame :=
  {| columns := ["EmployeeID"; "Department"; "Gender"];
     rows := [ [VStr "E1"; VStr "All"; VStr "F"];
               [VStr "E2"; VStr "Eng"; VStr "M"];
               [VStr "E3"; VStr "All"; VStr "M"] ] |}.

(** The fifteen columns for two employees, the profile written as text. *)
Definition staff_text : DataFrame :=
  {| columns := num_cols;
     rows := [ [VNum 30; VNum 12; VNum 4; VNum 4; VNum 4; VNum 3; VNum 2;
                VNum 3; VNum 5; VNum 10; VNum 1; VNum 4; VNum 4; VNum 3;
                VStr "steady"];
               [VNum 41; VNum 60; VNum 3; VNum 5; VNum 3; VNum 4; VNum 3;
                VNum 2; VNum 0; VNum 8; VNum 2; VNum 3; VNum 5; VNum 3;
                VStr "at risk"] ] |}.



(** The survey with an attrition flag as its last column. *)
Definition survey_flagged : DataFrame :=
  {| columns := (columns survey ++ ["Attrition"])%list;
     rows := zip_with (λ r a, (r ++ [a])%list) (rows survey)
               [VNum 0; VNum 1; VNum 0; VNum 1] |}.

(** * Proofs *)

(** Membership in a list that is written out. *)
Ltac in_list := apply list_elem_of_In; simpl; tauto.

(** ** Cells and columns *)

Lemma py_eq_VStr x s : py_eq x (VStr s) = true ↔ x = VStr s.
Proof.
  destruct x as [t| |]; simpl; try (split; [discriminate | intros [=]]).
  rewrite String.eqb_eq. split; [by intros -> | by intros [= ->]].
Qed.

Lemma py_ne_All v : py_ne v All = true ↔ v ≠ All.
Proof.
  unfold py_ne. rewrite negb_true_iff, <- not_true_iff_false.
  unfold All. by rewrite py_eq_VStr.
Qed.

Lemma column_index_Some c cols : c ∈ cols → is_Some (column_index c cols).
Proof.
  induction cols as [|c' cols IH]; [by intros ?%elem_of_nil|].
  intros Hin. simpl. destruct (String.eqb_spec c c') as [->|Hne]; [by eexists|].
  apply elem_of_cons in Hin as [?|Hin]; [done|].
  destruct (IH Hin) as [i ->]. by eexists.
Qed.

Lemma column_index_None c cols : c ∉ cols → column_index c cols = None.
Proof.
  induction cols as [|c' cols IH]; [done|].
  intros Hin. simpl. destruct (String.eqb_spec c c') as [->|Hne].
  - exfalso. apply Hin. by left.
  - rewrite IH; [done|]. intros ?. apply Hin. by right.
Qed.

Lemma column_index_elem_of c cols i : column_index c cols = Some i → c ∈ cols.
Proof.
  destruct (decide (c ∈ cols)) as [|Hn]; [done|].
  by rewrite (column_index_None _ _ Hn).
Qed.

Lemma getitem_elem_of df c s : getitem df c = Ok s → c ∈ columns df.
Proof.
  unfold getitem. destruct (column_index c (columns df)) eqn:Hi; [|done].
  intros _. by eapply column_index_elem_of.
Qed.

Lemma filterable_cases cols c v :
  filterable cols c v
  ∨ (¬ filterable cols c v ∧ py_ne v All = true ∧ column_index c cols = None).
Proof.
  destruct (py_ne v All) eqn:Hne.
  - destruct (decide (c ∈ cols)) as [Hin|Hin].
    + left. by intros _.
    + right. split_and!; [|done|by apply column_index_None].
      intros Hf. by apply Hin, Hf, py_ne_All.
  - left. intros Hv. apply py_ne_All in Hv. congruence.
Qed.

Lemma mask_rows_series_eq i v rs :
  mask_rows rs (series_eq (cell i <$> rs) v)
  = List.filter (λ r, py_eq (cell i r) v) rs.
Proof.
  induction rs as [|r rs IH]; [done|].
  simpl. rewrite <- IH. done.
Qed.

Lemma filter_true {A} (f : A → bool) l :
  (∀ x, f x = true) → List.filter f l = l.
Proof.
  intros Hf. induction l as [|x l IH]; [done|]. simpl. by rewrite Hf, IH.
Qed.

Lemma filter_true_in {A} (f : A → bool) l :
  (∀ x, x ∈ l → f x = true) → List.filter f l = l.
Proof.
  induction l as [|x l IH]; [done|]. intros H. simpl.
  rewrite (H x), IH; [done| |by left]. intros y Hy. apply H. by right.
Qed.

Lemma filter_false {A} (l : list A) : List.filter (λ _, false) l = [].
Proof. by induction l. Qed.

Lemma filter_filter {A} (f g : A → bool) l :
  List.filter g (List.filter f l) = List.filter (λ x, f x && g x) l.
Proof.
  induction l as [|x l IH]; [done|]. simpl.
  destruct (f x); simpl; [destruct (g x)|]; by rewrite IH.
Qed.

Lemma filter_sublist {A} (f : A → bool) l : sublist (List.filter f l) l.
Proof.
  induction l as [|x l IH]; [constructor|]. simpl.
  destruct (f x); by constructor.
Qed.

Lemma elem_of_filter_bool {A} (f : A → bool) l x :
  x ∈ List.filter f l ↔ x ∈ l ∧ f x = true.
Proof. rewrite !list_elem_of_In. apply filter_In. Qed.

(** ** The heap *)

Section heap_steps.
Context {A B : Type} (m : HeapM A) (f : A → HeapM B) (h : heap).

Lemma bind_Ok a h' : m h = Ok (a, h') → (m ≫= f) h = f a h'.
Proof. unfold mbind, heap_bind. by intros ->. Qed.

Lemma bind_Raise e : m h = Raise e → (m ≫= f) h = Raise e.
Proof. unfold mbind, heap_bind. by intros ->. Qed.

End heap_steps.

Lemma fresh_None (h : heap) : h !! fresh (dom h) = None.
Proof. apply not_elem_of_dom, is_fresh. Qed.

Lemma alloc_subseteq (h : heap) df : h ⊆ <[fresh (dom h) := df]> h.
Proof. apply insert_subseteq, fresh_None. Qed.

Lemma alloc_None (h : heap) df l :
  <[fresh (dom h) := df]> h !! l = None → h !! l = None.
Proof. intros Hn. eapply lookup_weaken_None; [exact Hn|apply alloc_subseteq]. Qed.

Lemma load_Ok (h : heap) l t : h !! l = Some t → load l h = Ok (t, h).
Proof. unfold load. by intros ->. Qed.

Lemma copy_Ok (h : heap) l t :
  h !! l = Some t → copy l h = Ok (fresh (dom h), <[fresh (dom h) := t]> h).
Proof. intros Hl. unfold copy. by rewrite (bind_Ok _ _ _ _ _ (load_Ok h l t Hl)). Qed.

(** One of the two conditional rebinding steps of the pass. *)
Lemma filter_step_run c v l (h : heap) t :
  h !! l = Some t →
  filterable (columns t) c v →
  ∃ l' h',
    (if py_ne v All then
       s ← getitem_at l c; getitem_mask l (series_eq s v)
     else mret l) h = Ok (l', h')
    ∧ h ⊆ h'
    ∧ (l' = l ∨ h !! l' = None)
    ∧ h' !! l' = Some {| columns := columns t;
                         rows := List.filter (selects (columns t) c v) (rows t) |}.
Proof.
  intros Hl Hok. unfold selects.
  destruct (py_ne v All) eqn:Hne.
  - apply py_ne_All in Hne.
    destruct (column_index_Some c (columns t) (Hok Hne)) as [i Hi].
    eexists _, _. split_and!.
    + erewrite bind_Ok.
      2:{ unfold getitem_at. erewrite bind_Ok by by apply load_Ok.
          unfold lift, getitem. by rewrite Hi. }
      unfold getitem_mask. erewrite bind_Ok by by apply load_Ok. done.
    + apply alloc_subseteq.
    + right. apply fresh_None.
    + rewrite lookup_insert_eq, mask_rows_series_eq. do 2 f_equal.
      unfold field_of. by rewrite Hi.
  - exists l, h. split_and!; [done|done|by left|].
    rewrite Hl, filter_true by done. by destruct t.
Qed.

Lemma filter_step_raise c v l (h : heap) t :
  h !! l = Some t →
  py_ne v All = true →
  column_index c (columns t) = None →
  (if py_ne v All then
     s ← getitem_at l c; getitem_mask l (series_eq s v)
   else mret l) h = Raise (KeyError c).
Proof.
  intros Hl -> Hc. apply bind_Raise.
  unfold getitem_at. erewrite bind_Ok by by apply load_Ok.
  unfold lift, getitem. by rewrite Hc.
Qed.

(** The pass on a heap where [df] holds the table: it returns, unless a
    constrained selector lacks its column; then it raises the error of the
    first such column. *)
Lemma df_filtered_cases (h : heap) df table d g :
  h !! df = Some table →
  (filterable (columns table) "Department" d
   ∧ filterable (columns table) "Gender" g
   ∧ ∃ l h',
       df_filtered df d g h = Ok (l, h')
       ∧ h ⊆ h'
       ∧ h !! l = None
       ∧ h' !! l = Some {| columns := columns table;
                           rows := List.filter
                                     (satisfies (columns table) (mkSelection d g))
                                     (rows table) |})
  ∨ (¬ (filterable (columns table) "Department" d
        ∧ filterable (columns table) "Gender" g)
     ∧ ∃ c, df_filtered df d g h = Raise (KeyError c)).
Proof.
  intros Hdf. unfold df_filtered.
  rewrite (bind_Ok _ _ _ _ _ (copy_Ok h df table Hdf)).
  set (l0 := fresh (dom h)). set (h0 := <[l0 := table]> h).
  assert (h0 !! l0 = Some table) as Hl0 by apply lookup_insert_eq.
  destruct (filterable_cases (columns table) "Department" d)
    as [Hd|(Hd0 & Hd1 & Hd2)].
  2:{ right. split; [tauto|]. exists "Department". apply bind_Raise.
      by apply (filter_step_raise _ _ _ _ table). }
  destruct (filter_step_run "Department" d l0 h0 table Hl0 Hd)
    as (l1 & h1 & Hrun1 & Hsub1 & Hfresh1 & Hl1).
  rewrite (bind_Ok _ _ _ _ _ Hrun1).
  destruct (filterable_cases (columns table) "Gender" g)
    as [Hg|(Hg0 & Hg1 & Hg2)].
  2:{ right. split; [tauto|]. exists "Gender". apply bind_Raise.
      by eapply filter_step_raise. }
  destruct (filter_step_run "Gender" g l1 h1 _ Hl1 Hg)
    as (l2 & h2 & Hrun2 & Hsub2 & Hfresh2 & Hl2).
  simpl in Hrun2, Hl2. rewrite (bind_Ok _ _ _ _ _ Hrun2).
  left. split_and!; [done|done|]. exists l2, h2. split_and!.
  - done.
  - etrans; [apply alloc_subseteq|]. fold l0 h0. by etrans.
  - assert (h !! l1 = None) as H1.
    { destruct Hfresh1 as [->|Hn]; [apply fresh_None|by eapply alloc_None]. }
    destruct Hfresh2 as [->|Hn]; [done|].
    eapply alloc_None. by eapply lookup_weaken_None.
  - rewrite Hl2. do 2 f_equal. apply filter_filter.
Qed.

Lemma df_filtered_run (h : heap) df table d g :
  h !! df = Some table →
  filterable (columns table) "Department" d →
  filterable (columns table) "Gender" g →
  ∃ l h',
    df_filtered df d g h = Ok (l, h')
    ∧ h ⊆ h'
    ∧ h !! l = None
    ∧ h' !! l = Some {| columns := columns table;
                        rows := List.filter
                                  (satisfies (columns table) (mkSelection d g))
                                  (rows table) |}.
Proof.
  intros Hdf Hd Hg.
  destruct (df_filtered_cases h df table d g Hdf) as [(_ & _ & H)|[Hn _]]; tauto.
Qed.

(** The pass on a table alone: the filtered table, or the error of the
    first constrained selector whose column is missing. *)
Lemma applyFilters_cases table sel :
  applyFilters table sel
  = Ok {| columns := columns table;
          rows := List.filter (satisfies (columns table) sel) (rows table) |}
  ∨ ∃ c, applyFilters table sel = Raise (KeyError c).
Proof.
  unfold applyFilters, run.
  set (l0 := fresh (dom (∅ : gmap nat DataFrame))).
  set (h0 := <[l0 := table]> (∅ : gmap nat DataFrame)).
  assert (alloc table ∅ = Ok (l0, h0)) as Halloc by done.
  rewrite (bind_Ok _ _ _ _ _ Halloc).
  destruct (df_filtered_cases h0 l0 table (sel_department sel) (sel_gender sel))
    as [(_ & _ & l & h & Hrun & _ & _ & Hl)|(_ & c & Hc)];
    [apply lookup_insert_eq|..].
  - left. rewrite (bind_Ok _ _ _ _ _ Hrun), (load_Ok _ _ _ Hl). by destruct sel.
  - right. exists c. by rewrite (bind_Raise _ _ _ _ Hc).
Qed.

Lemma applyFilters_eq table sel :
  filterable (columns table) "Department" (sel_department sel) →
  filterable (columns table) "Gender" (sel_gender sel) →
  applyFilters table sel
  = Ok {| columns := columns table;
          rows := List.filter (satisfies (columns table) sel) (rows table) |}.
Proof.
  intros Hd Hg. unfold applyFilters, run.
  set (l0 := fresh (dom (∅ : gmap nat DataFrame))).
  set (h0 := <[l0 := table]> (∅ : gmap nat DataFrame)).
  assert (alloc table ∅ = Ok (l0, h0)) as Halloc by done.
  rewrite (bind_Ok _ _ _ _ _ Halloc).
  destruct (df_filtered_run h0 l0 table (sel_department sel) (sel_gender sel))
    as (l & h & Hrun & _ & _ & Hl); [apply lookup_insert_eq|done|done|].
  rewrite (bind_Ok _ _ _ _ _ Hrun), (load_Ok _ _ _ Hl). by destruct sel.
Qed.

Lemma selects_spec cols c v r :
  selects cols c v r = true ↔ (v ≠ All → py_eq (field_of cols c r) v = true).
Proof.
  unfold selects. destruct (py_ne v All) eqn:Hne.
  - apply py_ne_All in Hne. naive_solver.
  - split; [|done]. intros _ Hv. apply py_ne_All in Hv. congruence.
Qed.

(** ** Filtering *)

(** C1: with the columns the constrained selectors need, the filtering
    pass returns a view with the columns of the table whose rows are
    exactly the rows of the table that equal the selected department, when
    that selector is not "All", and the selected gender, when that
    selector is not "All": the table's rows filtered by the conjunction of
    the two conditions. *)
Theorem applyFilters_exact table sel :
  filterable (columns table) "Department" (sel_department sel) →
  filterable (columns table) "Gender" (sel_gender sel) →
  ∃ view,
    applyFilters table sel = Ok view
    ∧ columns view = columns table
    ∧ rows view = List.filter (satisfies (columns table) sel) (rows table)
    ∧ ∀ r, r ∈ rows view ↔
        r ∈ rows table
        ∧ (sel_department sel ≠ All →
           py_eq (field_of (columns table) "Department" r) (sel_department sel)
           = true)
        ∧ (sel_gender sel ≠ All →
           py_eq (field_of (columns table) "Gender" r) (sel_gender sel) = true).
Proof.
  intros Hd Hg. eexists. split; [by apply applyFilters_eq|].
  split_and!; [done|done|]. intros r. simpl.
  rewrite elem_of_filter_bool. unfold satisfies.
  by rewrite andb_true_iff, !selects_spec.
Qed.

Lemma applyFilters_exact_witness :
  filterable (columns staff) "Department" (VStr "Eng")
  ∧ filterable (columns staff) "Gender" All
  ∧ ∃ view,
      applyFilters staff (mkSelection (VStr "Eng") All) = Ok view
      ∧ columns view = columns staff
      ∧ rows view
        = List.filter (satisfies (columns staff) (mkSelection (VStr "Eng") All))
            (rows staff)
      ∧ ∀ r, r ∈ rows view ↔
          r ∈ rows staff
          ∧ (VStr "Eng" ≠ All →
             py_eq (field_of (columns staff) "Department" r) (VStr "Eng") = true)
          ∧ (All ≠ All →
             py_eq (field_of (columns staff) "Gender" r) All = true).
Proof.
  split; [|split].
  - intros _. in_list.
  - intros H. by destruct H.
  - apply (applyFilters_exact staff (mkSelection (VStr "Eng") All)).
    + intros _. in_list.
    + intros H. by destruct H.
Defined.

(** The two Engineering rows of the staff, and nothing else. *)
Example applyFilters_Eng :
  applyFilters staff (mkSelection (VStr "Eng") All)
  = Ok {| columns := columns staff; rows := take 2 (rows staff) |}.
Proof. reflexivity. Qed.

(** C7: with both selectors on "All" the filtering pass returns the table
    itself, columns and rows. *)
Theorem applyFilters_All table :
  applyFilters table (mkSelection All All) = Ok table.
Proof.
  rewrite applyFilters_eq by (by intros []).
  destruct table as [cols rs]. simpl. by rewrite filter_true.
Qed.

(** C9: every row of a view the filtering pass returns is a row of the
    table it was given, whatever the selection; the view is computed from
    the whole table each time. *)
Theorem applyFilters_subset table sel view :
  applyFilters table sel = Ok view →
  ∀ r, r ∈ rows view → r ∈ rows table.
Proof.
  destruct (applyFilters_cases table sel) as [-> | [e ->]]; [|done].
  intros [= <-] r. simpl. rewrite elem_of_filter_bool. tauto.
Qed.

Lemma applyFilters_subset_witness :
  ∃ view,
    applyFilters staff (mkSelection (VStr "Sales") (VStr "F")) = Ok view
    ∧ ∀ r, r ∈ rows view → r ∈ rows staff.
Proof.
  eexists. split; [reflexivity|].
  apply (applyFilters_subset staff (mkSelection (VStr "Sales") (VStr "F"))).
  reflexivity.
Defined.

(** C10: run on any heap in which [df] is bound to the table, the filtering
    pass ends with [df_filtered] bound to a frame other than [df]; that
    frame has the rows of the table that satisfy the selection, each row as
    it was and in the order of the table; [df] and every other frame of the
    heap are as before. *)
Theorem df_filtered_preserves (h : heap) df table d g :
  h !! df = Some table →
  filterable (columns table) "Department" d →
  filterable (columns table) "Gender" g →
  ∃ l h' view,
    df_filtered df d g h = Ok (l, h')
    ∧ h' !! l = Some view
    ∧ columns view = columns table
    ∧ rows view
      = List.filter (satisfies (columns table) (mkSelection d g)) (rows table)
    ∧ sublist (rows view) (rows table)
    ∧ l ≠ df
    ∧ h' !! df = Some table
    ∧ ∀ l0 t0, h !! l0 = Some t0 → h' !! l0 = Some t0.
Proof.
  intros Hdf Hd Hg.
  destruct (df_filtered_run h df table d g Hdf Hd Hg)
    as (l & h' & Hrun & Hsub & Hfresh & Hl).
  exists l, h'. eexists. split_and!; [done|done|done|done|..].
  - apply filter_sublist.
  - intros ->. congruence.
  - by eapply lookup_weaken.
  - intros l0 t0 H0. by eapply lookup_weaken.
Qed.

Lemma df_filtered_preserves_witness :
  ({[ 0%nat := staff ]} : gmap nat DataFrame) !! 0%nat = Some staff
  ∧ filterable (columns staff) "Department" (VStr "Eng")
  ∧ filterable (columns staff) "Gender" (VStr "M")
  ∧ ∃ l h' view,
      df_filtered 0%nat (VStr "Eng") (VStr "M") {[ 0%nat := staff ]} = Ok (l, h')
      ∧ h' !! l = Some view
      ∧ columns view = columns staff
      ∧ rows view
        = List.filter
            (satisfies (columns staff) (mkSelection (VStr "Eng") (VStr "M")))
            (rows staff)
      ∧ sublist (rows view) (rows staff)
      ∧ l ≠ 0%nat
      ∧ h' !! 0%nat = Some staff
      ∧ ∀ l0 t0, ({[ 0%nat := staff ]} : gmap nat DataFrame) !! l0 = Some t0 →
                 h' !! l0 = Some t0.
Proof.
  assert (∀ c, c ∈ columns staff → ∀ v, filterable (columns staff) c v) as Hc.
  { intros c Hin v _. exact Hin. }
  split_and!.
  - reflexivity.
  - apply Hc. in_list.
  - apply Hc. in_list.
  - apply (df_filtered_preserves {[ 0%nat := staff ]} 0%nat staff
             (VStr "Eng") (VStr "M")).
    + reflexivity.
    + apply Hc. in_list.
    + apply Hc. in_list.
Defined.

(** ** Selectors *)

Lemma ascii_compare_trans a b c :
  Ascii.compare a b = Lt → Ascii.compare b c = Lt → Ascii.compare a c = Lt.
Proof.
  unfold Ascii.compare. rewrite !N.compare_lt_iff. apply N.lt_trans.
Qed.

Lemma string_compare_trans a b c :
  String.compare a b = Lt → String.compare b c = Lt → String.compare a c = Lt.
Proof.
  revert b c. induction a as [|x a IH]; intros [|y b] [|z c]; simpl; try done.
  destruct (Ascii.compare x y) eqn:Hxy; try done.
  - apply Ascii.compare_eq_iff in Hxy as ->.
    destruct (Ascii.compare y z); try done. apply IH.
  - intros _. destruct (Ascii.compare y z) eqn:Hyz; try done.
    + apply Ascii.compare_eq_iff in Hyz as <-. by rewrite Hxy.
    + by rewrite (ascii_compare_trans x y z).
Qed.

Lemma str_lt_trans a b c : str_lt a b → str_lt b c → str_lt a c.
Proof.
  unfold str_lt, String.ltb. intros Hab Hbc.
  destruct (String.compare a b) eqn:H1; try done.
  destruct (String.compare b c) eqn:H2; try done.
  by rewrite (string_compare_trans a b c).
Qed.

Lemma str_lt_total a b : String.ltb a b = false → a ≠ b → str_lt b a.
Proof.
  unfold str_lt, String.ltb. intros H Hne.
  rewrite (String.compare_antisym b a).
  destruct (String.compare a b) eqn:Hc; try done.
  by apply String.compare_eq_iff in Hc.
Qed.

Lemma insert_sorted_cons_str x y l :
  insert_sorted (VStr x) (VStr y :: l)
  = if String.ltb y x then l' ← insert_sorted (VStr x) l; Ok (VStr y :: l')
    else Ok (VStr x :: VStr y :: l).
Proof. reflexivity. Qed.

Lemma insert_sorted_strs x l :
  StronglySorted str_lt l → x ∉ l →
  ∃ l', insert_sorted (VStr x) (VStr <$> l) = Ok (VStr <$> l')
        ∧ l' ≡ₚ x :: l
        ∧ StronglySorted str_lt l'.
Proof.
  induction l as [|y l IH]; intros Hs Hx.
  - exists [x]. split_and!; [done|done|]. repeat constructor.
  - apply StronglySorted_inv in Hs as [Hs Hy].
    apply not_elem_of_cons in Hx as [Hxy Hx].
    rewrite fmap_cons, insert_sorted_cons_str.
    destruct (String.ltb y x) eqn:Hlt.
    + destruct (IH Hs Hx) as (l' & -> & Hp & Hs').
      exists (y :: l'). split_and!; [done|..].
      * rewrite Hp. apply Permutation_swap.
      * constructor; [done|]. rewrite Hp. by constructor.
    + exists (x :: y :: l). split_and!; [done|done|].
      assert (str_lt x y) as Hxy' by (by apply str_lt_total).
      constructor; [by constructor|]. constructor; [done|].
      eapply Forall_impl; [exact Hy|]. intros z Hz. by eapply str_lt_trans.
Qed.

Lemma sorted_strs l :
  NoDup l →
  ∃ l', sorted (VStr <$> l) = Ok (VStr <$> l')
        ∧ l' ≡ₚ l
        ∧ StronglySorted str_lt l'.
Proof.
  induction l as [|x l IH]; intros Hnd.
  - exists []. split_and!; [done|done|constructor].
  - apply NoDup_cons in Hnd as [Hx Hnd].
    destruct (IH Hnd) as (l1 & Hl1 & Hp1 & Hs1).
    destruct (insert_sorted_strs x l1 Hs1) as (l2 & Hl2 & Hp2 & Hs2).
    { by rewrite Hp1. }
    exists l2. split_and!; [|by rewrite Hp2, Hp1|done].
    rewrite fmap_cons. cbn [sorted]. by rewrite Hl1.
Qed.

Lemma filter_fmap_VStr x u :
  List.filter (λ y, negb (same_value (VStr x) y)) (VStr <$> u)
  = VStr <$> List.filter (λ y, negb (String.eqb x y)) u.
Proof.
  induction u as [|y u IH]; [done|].
  rewrite fmap_cons. cbn [List.filter].
  change (same_value (VStr x) (VStr y)) with (String.eqb x y).
  destruct (String.eqb x y); cbn [negb]; by rewrite ?fmap_cons, IH.
Qed.

Lemma unique_strs l :
  ∃ u, unique (VStr <$> l) = VStr <$> u
       ∧ NoDup u
       ∧ ∀ x, x ∈ u ↔ x ∈ l.
Proof.
  induction l as [|x l (u & Hu & Hnd & Hin)].
  - exists []. split_and!; [done|constructor|done].
  - exists (x :: List.filter (λ y, negb (String.eqb x y)) u). split_and!.
    + rewrite fmap_cons. cbn [unique]. by rewrite Hu, filter_fmap_VStr.
    + constructor.
      * rewrite elem_of_filter_bool, String.eqb_refl. by intros [_ ?].
      * apply NoDup_ListNoDup, List.NoDup_filter, NoDup_ListNoDup, Hnd.
    + intros y. rewrite !elem_of_cons, elem_of_filter_bool, Hin.
      rewrite negb_true_iff, String.eqb_neq.
      destruct (decide (y = x)) as [->|Hne]; [tauto|].
      split; [intros [?|[? _]]; tauto|intros [?|?]; [done|right; split; congruence]].
Qed.

(** A blank cell among strings: the comparison of a float with a string
    raises, and so does the selector. *)
Example distinctValues_blank :
  distinctValues {| columns := ["Department"]; rows := [[VStr "Eng"]; [VNaN]] |}
    "Department"
  = Raise TypeError.
Proof. reflexivity. Qed.

(** C5: on a column whose cells are all strings, [distinctValues] returns
    the strings of the column in strictly ascending order, each once, as
    many as the column has distinct values; the selector offers "All"
    followed by them. *)
Theorem distinctValues_sorted table columnName strs :
  getitem table columnName = Ok (VStr <$> strs) →
  ∃ l,
    distinctValues table columnName = Ok (VStr <$> l)
    ∧ StronglySorted str_lt l
    ∧ NoDup l
    ∧ (∀ x, x ∈ l ↔ x ∈ strs)
    ∧ length l = size (list_to_set strs : gset string)
    ∧ selector_options table columnName = Ok (All :: (VStr <$> l)).
Proof.
  intros Hcol.
  destruct (unique_strs strs) as (u & Hu & Hnd & Hin).
  destruct (sorted_strs u Hnd) as (l & Hl & Hp & Hs).
  assert (distinctValues table columnName = Ok (VStr <$> l)) as Hdv.
  { unfold distinctValues. rewrite Hcol. simpl. by rewrite Hu. }
  exists l. split_and!; [done|done|by rewrite Hp| |..].
  - intros x. by rewrite Hp.
  - rewrite Hp, <- (size_list_to_set (C := gset string)) by done.
    f_equal. apply set_eq. intros x. by rewrite !elem_of_list_to_set.
  - unfold selector_options. by rewrite Hdv.
Qed.

Lemma distinctValues_sorted_witness :
  getitem staff "Department"
  = Ok (VStr <$> ["Eng"; "Eng"; "Sales"; "Sales"])
  ∧ ∃ l,
      distinctValues staff "Department" = Ok (VStr <$> l)
      ∧ StronglySorted str_lt l
      ∧ NoDup l
      ∧ (∀ x, x ∈ l ↔ x ∈ ["Eng"; "Eng"; "Sales"; "Sales"])
      ∧ length l = size (list_to_set ["Eng"; "Eng"; "Sales"; "Sales"] : gset string)
      ∧ selector_options staff "Department" = Ok (All :: (VStr <$> l)).
Proof.
  split; [reflexivity|].
  apply (distinctValues_sorted staff "Department" ["Eng"; "Eng"; "Sales"; "Sales"]).
  reflexivity.
Defined.

(** ** Counting by group *)

Lemma same_value_refl v : same_value v v = true.
Proof.
  destruct v as [s|q|]; simpl; [apply String.eqb_refl|apply Qeq_bool_refl|done].
Qed.

Lemma same_value_sym a b : same_value a b = same_value b a.
Proof.
  destruct a as [s|p|], b as [t|q|]; simpl; try done.
  - apply String.eqb_sym.
  - apply Qeq_bool_comm.
Qed.

Lemma same_value_trans a b c :
  same_value a b = true → same_value b c = true → same_value a c = true.
Proof.
  destruct a as [s|p|], b as [t|q|], c as [u|r|]; simpl; try done.
  - rewrite !String.eqb_eq. congruence.
  - apply Qeq_bool_trans.
Qed.

Lemma getitem_length df c s : getitem df c = Ok s → length s = length (rows df).
Proof.
  unfold getitem. destruct (column_index c (columns df)); [|done].
  intros [= <-]. apply length_fmap.
Qed.

Lemma sum_list_with_add {A} (f g : A → nat) l :
  sum_list_with (λ x, f x + g x) l = sum_list_with f l + sum_list_with g l.
Proof. induction l as [|x l IH]; simpl; lia. Qed.

Lemma sum_list_with_indicator {A} (p : A → bool) l :
  sum_list_with (λ x, if p x then 1 else 0) l = length (List.filter p l).
Proof.
  induction l as [|x l IH]; [done|]. simpl. destruct (p x); simpl; lia.
Qed.

Lemma sum_list_with_ext_in {A} (f g : A → nat) l :
  (∀ x, x ∈ l → f x = g x) → sum_list_with f l = sum_list_with g l.
Proof.
  induction l as [|x l IH]; [done|]. intros H. simpl.
  rewrite (H x), IH; [done| |by left]. intros y Hy. apply H. by right.
Qed.

Lemma sum_list_with_fmap {A B} (f : B → nat) (g : A → B) l :
  sum_list_with f (g <$> l) = sum_list_with (λ x, f (g x)) l.
Proof. induction l as [|x l IH]; csimpl; [done|by rewrite IH]. Qed.

Lemma sum_list_with_one {A} (l : list A) : sum_list_with (λ _, 1) l = length l.
Proof. induction l as [|x l IH]; simpl; [done|by rewrite IH]. Qed.

Lemma count_cons k v s :
  count k (v :: s) = (if same_value k v then 1 else 0) + count k s.
Proof. unfold count. simpl. by destruct (same_value k v). Qed.

(** Counting the cells per key, or the keys per cell, is the same sum. *)
Lemma sum_count_swap K s :
  sum_list_with (λ k, count k s) K
  = sum_list_with (λ v, length (List.filter (λ k, same_value k v) K)) s.
Proof.
  induction s as [|v s IH].
  - simpl. induction K as [|k K IHK]; [done|]. simpl. by rewrite IHK.
  - simpl. rewrite <- IH, <- sum_list_with_indicator, <- sum_list_with_add.
    apply sum_list_with_ext_in. intros k _. apply count_cons.
Qed.

(** Every cell of a series matches exactly one of its distinct values. *)
Lemma unique_match_one s v :
  v ∈ s → length (List.filter (λ k, same_value k v) (unique s)) = 1.
Proof.
  induction s as [|x s IH]; [by intros ?%elem_of_nil|].
  intros Hv. cbn [unique List.filter]. rewrite filter_filter.
  destruct (same_value x v) eqn:Hxv.
  - rewrite (List.filter_ext _ (λ _, false)).
    + by rewrite filter_false.
    + intros k. destruct (same_value x k) eqn:Hxk; [done|]. simpl.
      destruct (same_value k v) eqn:Hkv; [|done].
      rewrite (same_value_trans x v k) in Hxk; [done|done|].
      by rewrite same_value_sym.
  - rewrite (List.filter_ext _ (λ k, same_value k v)).
    + apply IH. apply elem_of_cons in Hv as [->|Hv]; [|done].
      by rewrite same_value_refl in Hxv.
    + intros k. destruct (same_value k v) eqn:Hkv; [|by rewrite andb_false_r].
      destruct (same_value x k) eqn:Hxk; [|done].
      by rewrite (same_value_trans x k v) in Hxv.
Qed.

Lemma sum_count_unique s :
  sum_list_with (λ k, count k s) (unique s) = length s.
Proof.
  rewrite sum_count_swap, <- sum_list_with_one.
  apply sum_list_with_ext_in. intros v Hv. by apply unique_match_one.
Qed.

Lemma sum_pie_sectors s : sum_list_with snd (pie_sectors s) = length s.
Proof.
  unfold pie_sectors. rewrite sum_list_with_fmap. apply sum_count_unique.
Qed.

Lemma sum_value_counts s :
  sum_list_with snd (value_counts s) = length (List.filter notna s).
Proof.
  unfold value_counts. rewrite merge_sort_Permutation, sum_list_with_fmap.
  apply sum_count_unique.
Qed.

Lemma check_columns_Ok df cols :
  Forall (λ c, c ∈ columns df) cols → check_columns df cols = Ok ().
Proof.
  intros H. unfold check_columns.
  rewrite (proj2 (forallb_forall _ _)); [done|].
  intros c Hc%list_elem_of_In. apply bool_decide_eq_true.
  by eapply Forall_forall in H.
Qed.

(** C6, as the code has it: the counts behind the profile bars add up to
    the number of rows that have a profile, which is the number of rows of
    the view when no profile is missing; the counts behind the department
    share add up to the number of rows of the view. *)
Theorem grouped_counts_sum view prof dept :
  getitem view "LPA_Profile" = Ok prof →
  getitem view "Department" = Ok dept →
  fig1 view
  = Ok (Bar (reset_index_counts "LPA_Profile" (value_counts prof))
          "index" "LPA_Profile" "index"
          [("index", "LPA Profile"); ("LPA_Profile", "Count")]
          "Employees Per Profile")
  ∧ fig2 view = Ok (Pie view "Department" "Employee Department Share")
  ∧ sum_list_with snd (value_counts prof) = length (List.filter notna prof)
  ∧ (Forall (λ v, v ≠ VNaN) prof →
     sum_list_with snd (value_counts prof) = length (rows view))
  ∧ sum_list_with snd (pie_sectors dept) = length (rows view).
Proof.
  intros Hprof Hdept. split_and!.
  - unfold fig1. by rewrite Hprof.
  - unfold fig2, px_pie. rewrite check_columns_Ok; [done|].
    repeat constructor. by eapply getitem_elem_of.
  - apply sum_value_counts.
  - intros Hna. rewrite sum_value_counts, filter_true_in.
    + by eapply getitem_length.
    + intros v Hv. eapply Forall_forall in Hna; [|exact Hv]. by destruct v.
  - rewrite sum_pie_sectors. by eapply getitem_length.
Qed.

Lemma grouped_counts_sum_witness :
  getitem staff "LPA_Profile" = Ok [VNum 1; VNum 0; VNum 1; VNum 2]
  ∧ getitem staff "Department"
    = Ok [VStr "Eng"; VStr "Eng"; VStr "Sales"; VStr "Sales"]
  ∧ sum_list_with snd (value_counts [VNum 1; VNum 0; VNum 1; VNum 2])
    = length (rows staff)
  ∧ sum_list_with snd
      (pie_sectors [VStr "Eng"; VStr "Eng"; VStr "Sales"; VStr "Sales"])
    = length (rows staff).
Proof.
  destruct (grouped_counts_sum staff [VNum 1; VNum 0; VNum 1; VNum 2]
              [VStr "Eng"; VStr "Eng"; VStr "Sales"; VStr "Sales"])
    as (_ & _ & _ & Hprof & Hdept); [reflexivity|reflexivity|].
  split_and!; [reflexivity|reflexivity| |exact Hdept].
  apply Hprof. repeat constructor; discriminate.
Defined.

(** C6 as stated fails on a view with a blank profile: four rows, and
    profile counts that add up to three. *)
Lemma grouped_counts_missing_profile :
  getitem staff_gap "LPA_Profile" = Ok [VNum 1; VNum 0; VNaN; VNum 2]
  ∧ sum_list_with snd (value_counts [VNum 1; VNum 0; VNaN; VNum 2]) = 3%nat
  ∧ length (rows staff_gap) = 4%nat.
Proof. split_and!; reflexivity. Qed.

(** ** Attrition by profile *)

Lemma mapM_Ok {A B} (f : A → result B) (g : A → B) l :
  (∀ a, f a = Ok (g a)) → mapM f l = Ok (g <$> l).
Proof.
  intros H. induction l as [|a l IH]; [done|].
  cbn [mapM]. by rewrite H, IH.
Qed.

Lemma mapM_fmap {A B C} (f : B → result C) (h : A → B) l :
  mapM f (h <$> l) = mapM (λ a, f (h a)) l.
Proof. induction l as [|a l IH]; csimpl; [done|by rewrite IH]. Qed.

Lemma numbers_group_cells k by_ s :
  numeric_series s = true →
  numbers (group_cells k by_ s) = Ok (group_numbers k by_ s).
Proof.
  revert s. induction by_ as [|b by_ IH]; intros [|v s] Hs; try done.
  cbn [numeric_series forallb] in Hs. apply andb_true_iff in Hs as [Hv Hs].
  cbn [group_cells group_numbers]. destruct (same_value k b); [|by apply IH].
  destruct v as [t|q|]; [done| |by apply IH].
  cbn [numbers]. by rewrite IH.
Qed.

Lemma mean_group_cells k by_ s :
  numeric_series s = true →
  mean (group_cells k by_ s)
  = Ok (match group_numbers k by_ s with
        | [] => VNaN
        | xs => VNum (qmean xs)
        end).
Proof.
  intros Hs. unfold mean. rewrite numbers_group_cells by done.
  simpl. by destruct (group_numbers k by_ s).
Qed.

Lemma zip_with_fmap_same {A B C D} (f : B → C → D) (g : A → B) (h : A → C) l :
  zip_with f (g <$> l) (h <$> l) = (λ x, f (g x) (h x)) <$> l.
Proof. induction l as [|x l IH]; csimpl; [done|by rewrite IH]. Qed.

Lemma attr_data_eq view prof attr :
  getitem view "LPA_Profile" = Ok prof →
  getitem view "Attrition" = Ok attr →
  numeric_series attr = true →
  attr_data view
  = Ok {| columns := ["LPA_Profile"; "Attrition"];
          rows := (λ k, [k; percent k prof attr]) <$> group_keys prof |}.
Proof.
  intros Hprof Hattr Hnum. unfold attr_data, groupby_mean.
  rewrite Hprof, Hattr. cbn [mbind result_bind].
  rewrite (mapM_Ok _ (λ k, [k; match group_numbers k prof attr with
                               | [] => VNaN
                               | xs => VNum (qmean xs)
                               end])).
  2:{ intros k. by rewrite mean_group_cells. }
  cbn [mbind result_bind]. unfold getitem at 1.
  cbn [columns rows column_index String.eqb Ascii.eqb Bool.eqb fmap option_fmap option_map].
  rewrite <- list_fmap_compose.
  cbn [mbind result_bind]. unfold series_mul. rewrite mapM_fmap.
  rewrite (mapM_Ok _ (λ k, percent k prof attr)).
  2:{ intros k. unfold compose, percent, cell. simpl.
      by destruct (group_numbers k prof attr). }
  cbn [mbind result_bind]. unfold setitem.
  cbn [columns rows column_index String.eqb Ascii.eqb Bool.eqb fmap option_fmap option_map].
  rewrite bool_decide_eq_true_2 by (by rewrite !length_fmap).
  by rewrite zip_with_fmap_same.
Qed.

Lemma unique_subset s k : k ∈ unique s → k ∈ s.
Proof.
  induction s as [|x s IH]; [done|]. cbn [unique].
  rewrite !elem_of_cons, elem_of_filter_bool. intros [->|[Hk _]]; auto.
Qed.

Lemma filter_length_Permutation {A} (p : A → bool) l1 l2 :
  l1 ≡ₚ l2 → length (List.filter p l1) = length (List.filter p l2).
Proof. intros H. by rewrite <- !sum_list_with_indicator, H. Qed.

Lemma group_keys_elem_of prof k : k ∈ group_keys prof → k ∈ prof ∧ k ≠ VNaN.
Proof.
  unfold group_keys. rewrite merge_sort_Permutation.
  intros Hk%unique_subset. apply elem_of_filter_bool in Hk as [Hk Hna].
  split; [done|]. by intros ->.
Qed.

Lemma group_keys_match_one prof v :
  v ∈ prof → v ≠ VNaN →
  length (List.filter (λ k, same_value k v) (group_keys prof)) = 1.
Proof.
  intros Hv Hna. unfold group_keys.
  rewrite (filter_length_Permutation _ _ _ (merge_sort_Permutation _ _)).
  apply unique_match_one, elem_of_filter_bool. split; [done|]. by destruct v.
Qed.

(** C4: without an [Attrition] column the last block emits the warning and
    no chart, and raises nothing.  With it (and numbers in it) the block
    draws a bar chart of a frame that has one row per distinct profile of
    the view, holding the profile and a hundred times the mean of
    [Attrition] over the rows of that profile. *)
Theorem attrition_by_profile view :
  ("Attrition" ∉ columns view →
   visual7 view = Ok [Warning "Attrition column not found in dataset."])
  ∧ ∀ prof attr,
      getitem view "LPA_Profile" = Ok prof →
      getitem view "Attrition" = Ok attr →
      numeric_series attr = true →
      let data :=
        {| columns := ["LPA_Profile"; "Attrition"];
           rows := (λ k, [k; percent k prof attr]) <$> group_keys prof |} in
      attr_data view = Ok data
      ∧ visual7 view
        = Ok [Subheader "7️⃣ Attrition Rate by LPA Profile";
              PlotlyChart
                (Bar data "LPA_Profile" "Attrition" "LPA_Profile"
                   [("Attrition", "Attrition (%)")] "Attrition % by Profile")]
      ∧ (∀ k, k ∈ group_keys prof → k ∈ prof ∧ k ≠ VNaN)
      ∧ (∀ v, v ∈ prof → v ≠ VNaN →
         length (List.filter (λ k, same_value k v) (group_keys prof)) = 1).
Proof.
  split.
  - intros Hno. unfold visual7. by rewrite bool_decide_eq_false_2.
  - intros prof attr Hprof Hattr Hnum data.
    pose proof (attr_data_eq view prof attr Hprof Hattr Hnum) as Hdata.
    split_and!; [done| |apply group_keys_elem_of|apply group_keys_match_one].
    unfold visual7. rewrite bool_decide_eq_true_2 by (by eapply getitem_elem_of).
    by rewrite Hdata.
Qed.

Lemma attrition_by_profile_witness :
  ("Attrition" ∉ columns staff_no_attrition)
  ∧ visual7 staff_no_attrition
    = Ok [Warning "Attrition column not found in dataset."]
  ∧ getitem staff "LPA_Profile" = Ok [VNum 1; VNum 0; VNum 1; VNum 2]
  ∧ getitem staff "Attrition" = Ok [VNum 1; VNum 0; VNum 0; VNum 1]
  ∧ numeric_series [VNum 1; VNum 0; VNum 0; VNum 1] = true
  ∧ attr_data staff
    = Ok {| columns := ["LPA_Profile"; "Attrition"];
            rows := [ [VNum 0; VNum 0];
                      [VNum 1; VNum (100 # 2)];
                      [VNum 2; VNum 100] ] |}.
Proof.
  assert ("Attrition" ∉ columns staff_no_attrition) as Hno.
  { intros H%list_elem_of_In. simpl in H.
    repeat destruct H as [H|H]; try discriminate H. done. }
  split_and!; [exact Hno| |reflexivity|reflexivity|reflexivity|].
  - exact (proj1 (attrition_by_profile staff_no_attrition) Hno).
  - destruct (proj2 (attrition_by_profile staff)
                [VNum 1; VNum 0; VNum 1; VNum 2]
                [VNum 1; VNum 0; VNum 0; VNum 1]) as (Hdata & _);
      [reflexivity|reflexivity|reflexivity|].
    exact Hdata.
Defined.

(** ** Sums *)

Lemma qlen_cons x l : (qlen (x :: l) == 1 + qlen l)%Q.
Proof.
  unfold qlen. cbn [length]. rewrite Nat2Z.inj_succ, <- Z.add_1_l.
  by rewrite inject_Z_plus.
Qed.

Lemma qlen_nonneg l : (0 <= qlen l)%Q.
Proof.
  unfold qlen. change 0%Q with (inject_Z 0). rewrite <- Zle_Qle. lia.
Qed.

Lemma qlen_pos x l : (0 < qlen (x :: l))%Q.
Proof. rewrite qlen_cons. pose proof (qlen_nonneg l). lra. Qed.

(** ** Columns of a view *)







(** ** The stress histogram *)

(** What the script fixes about the histogram is the request: the view
    itself, [Stress] on the axis, a bin count of 20 and a split by
    [Gender].  The bin edges and the counts per bin are worked out by the
    charting library when it draws. *)
Lemma fig4_request view :
  "Stress" ∈ columns view → "Gender" ∈ columns view →
  fig4 view = Ok (Histogram view "Stress" 20 "Gender" "Stress Distribution").
Proof.
  intros Hs Hg. unfold fig4, px_histogram.
  rewrite check_columns_Ok; [done|]. by repeat constructor.
Qed.

(** * Further properties of the pass *)

(** ** Errors of the filtering pass *)

Lemma filterable_All cols c : filterable cols c All.
Proof. by intros []. Qed.

Lemma selects_All cols c r : selects cols c All r = true.
Proof. reflexivity. Qed.

Lemma df_filtered_raise_dept (h : heap) df table d g :
  h !! df = Some table →
  ¬ filterable (columns table) "Department" d →
  df_filtered df d g h = Raise (KeyError "Department").
Proof.
  intros Hdf Hd. unfold df_filtered.
  rewrite (bind_Ok _ _ _ _ _ (copy_Ok h df table Hdf)).
  destruct (filterable_cases (columns table) "Department" d)
    as [?|(_ & Hd1 & Hd2)]; [done|].
  apply bind_Raise. apply (filter_step_raise _ _ _ _ table); [|done..].
  apply lookup_insert_eq.
Qed.

Lemma df_filtered_raise_gender (h : heap) df table d g :
  h !! df = Some table →
  filterable (columns table) "Department" d →
  ¬ filterable (columns table) "Gender" g →
  df_filtered df d g h = Raise (KeyError "Gender").
Proof.
  intros Hdf Hd Hg. unfold df_filtered.
  rewrite (bind_Ok _ _ _ _ _ (copy_Ok h df table Hdf)).
  set (l0 := fresh (dom h)). set (h0 := <[l0 := table]> h).
  assert (h0 !! l0 = Some table) as Hl0 by apply lookup_insert_eq.
  destruct (filter_step_run "Department" d l0 h0 table Hl0 Hd)
    as (l1 & h1 & Hrun1 & _ & _ & Hl1).
  rewrite (bind_Ok _ _ _ _ _ Hrun1).
  destruct (filterable_cases (columns table) "Gender" g)
    as [?|(_ & Hg1 & Hg2)]; [done|].
  apply bind_Raise. by eapply filter_step_raise.
Qed.

Lemma applyFilters_raise_dept table sel :
  ¬ filterable (columns table) "Department" (sel_department sel) →
  applyFilters table sel = Raise (KeyError "Department").
Proof.
  intros Hd. unfold applyFilters, run.
  set (l0 := fresh (dom (∅ : gmap nat DataFrame))).
  set (h0 := <[l0 := table]> (∅ : gmap nat DataFrame)).
  assert (alloc table ∅ = Ok (l0, h0)) as Halloc by done.
  rewrite (bind_Ok _ _ _ _ _ Halloc).
  assert (h0 !! l0 = Some table) as Hl0 by apply lookup_insert_eq.
  by rewrite (bind_Raise _ _ _ _ (df_filtered_raise_dept h0 l0 table _ _ Hl0 Hd)).
Qed.

Lemma applyFilters_raise_gender table sel :
  filterable (columns table) "Department" (sel_department sel) →
  ¬ filterable (columns table) "Gender" (sel_gender sel) →
  applyFilters table sel = Raise (KeyError "Gender").
Proof.
  intros Hd Hg. unfold applyFilters, run.
  set (l0 := fresh (dom (∅ : gmap nat DataFrame))).
  set (h0 := <[l0 := table]> (∅ : gmap nat DataFrame)).
  assert (alloc table ∅ = Ok (l0, h0)) as Halloc by done.
  rewrite (bind_Ok _ _ _ _ _ Halloc).
  assert (h0 !! l0 = Some table) as Hl0 by apply lookup_insert_eq.
  by rewrite (bind_Raise _ _ _ _
                (df_filtered_raise_gender h0 l0 table _ _ Hl0 Hd Hg)).
Qed.

(** A view came out: both selectors had what they needed. *)
Lemma applyFilters_Ok_inv table sel view :
  applyFilters table sel = Ok view →
  filterable (columns table) "Department" (sel_department sel)
  ∧ filterable (columns table) "Gender" (sel_gender sel)
  ∧ view = {| columns := columns table;
              rows := List.filter (satisfies (columns table) sel) (rows table) |}.
Proof.
  intros Hv.
  destruct (filterable_cases (columns table) "Department" (sel_department sel))
    as [Hd|(Hd & _)]; [|by rewrite applyFilters_raise_dept in Hv].
  destruct (filterable_cases (columns table) "Gender" (sel_gender sel))
    as [Hg|(Hg & _)]; [|by rewrite applyFilters_raise_gender in Hv].
  rewrite applyFilters_eq in Hv by done. by injection Hv as <-.
Qed.

(** X3: the filtering pass fails only for want of a column, and the
    department is looked at first: a constrained department selector on a
    table without [Department] raises [KeyError] for it, whatever the
    gender selector; with the department in order, a constrained gender
    selector on a table without [Gender] raises [KeyError] for that. *)
Theorem applyFilters_KeyError table sel :
  (¬ filterable (columns table) "Department" (sel_department sel) →
   applyFilters table sel = Raise (KeyError "Department"))
  ∧ (filterable (columns table) "Department" (sel_department sel) →
     ¬ filterable (columns table) "Gender" (sel_gender sel) →
     applyFilters table sel = Raise (KeyError "Gender")).
Proof.
  split; [apply applyFilters_raise_dept|apply applyFilters_raise_gender].
Qed.

Lemma applyFilters_KeyError_witness :
  ¬ filterable ["Gender"] "Department" (VStr "Eng")
  ∧ applyFilters {| columns := ["Gender"]; rows := [[VStr "F"]] |}
      (mkSelection (VStr "Eng") (VStr "F"))
    = Raise (KeyError "Department")
  ∧ filterable ["Department"] "Department" (VStr "Eng")
  ∧ ¬ filterable ["Department"] "Gender" (VStr "F")
  ∧ applyFilters {| columns := ["Department"]; rows := [[VStr "Eng"]] |}
      (mkSelection (VStr "Eng") (VStr "F"))
    = Raise (KeyError "Gender").
Proof.
  assert (∀ cols c s, s ≠ "All" → ¬ In c cols → ¬ filterable cols c (VStr s)) as Hn.
  { intros cols c s Hs Hc Hf. apply Hc, list_elem_of_In, Hf. by intros [=]. }
  assert (¬ filterable ["Gender"] "Department" (VStr "Eng")) as H1.
  { apply Hn; [done|]. simpl. by intros [[=]|[]]. }
  assert (filterable ["Department"] "Department" (VStr "Eng")) as H2.
  { intros _. in_list. }
  assert (¬ filterable ["Department"] "Gender" (VStr "F")) as H3.
  { apply Hn; [done|]. simpl. by intros [[=]|[]]. }
  split_and!; [exact H1| |exact H2|exact H3|].
  - exact (proj1 (applyFilters_KeyError
             {| columns := ["Gender"]; rows := [[VStr "F"]] |}
             (mkSelection (VStr "Eng") (VStr "F"))) H1).
  - exact (proj2 (applyFilters_KeyError
             {| columns := ["Department"]; rows := [[VStr "Eng"]] |}
             (mkSelection (VStr "Eng") (VStr "F"))) H2 H3).
Defined.

(** ** How filters compose *)

Lemma satisfies_idem cols sel l :
  List.filter (satisfies cols sel) (List.filter (satisfies cols sel) l)
  = List.filter (satisfies cols sel) l.
Proof.
  rewrite filter_filter. apply List.filter_ext. intros r. apply andb_diag.
Qed.

(** X1: filtering is idempotent.  Filtering a view again by the selection
    that produced it returns the same view. *)
Theorem applyFilters_idempotent table sel view :
  applyFilters table sel = Ok view →
  applyFilters view sel = Ok view.
Proof.
  intros (Hd & Hg & ->)%applyFilters_Ok_inv.
  rewrite applyFilters_eq by done. cbn [columns rows].
  by rewrite satisfies_idem.
Qed.

Lemma applyFilters_idempotent_witness :
  ∃ view,
    applyFilters staff (mkSelection (VStr "Eng") (VStr "F")) = Ok view
    ∧ applyFilters view (mkSelection (VStr "Eng") (VStr "F")) = Ok view.
Proof.
  eexists. split; [reflexivity|].
  apply (applyFilters_idempotent staff (mkSelection (VStr "Eng") (VStr "F"))).
  reflexivity.
Defined.

(** X2: the two filters compose.  Filtering by department and then
    filtering the result by gender is the pass with both selectors, errors
    included; when the pass with both selectors returns a view, filtering
    by gender first and by department second returns that view too. *)
Theorem applyFilters_compose table d g :
  (v ← applyFilters table (mkSelection d All); applyFilters v (mkSelection All g))
  = applyFilters table (mkSelection d g)
  ∧ ∀ view,
      applyFilters table (mkSelection d g) = Ok view →
      (v ← applyFilters table (mkSelection All g);
       applyFilters v (mkSelection d All)) = Ok view.
Proof.
  split.
  - destruct (filterable_cases (columns table) "Department" d) as [Hd|(Hd & _)].
    2:{ rewrite !applyFilters_raise_dept by done. done. }
    rewrite (applyFilters_eq table (mkSelection d All))
      by (done || apply filterable_All).
    cbn [mbind result_bind].
    destruct (filterable_cases (columns table) "Gender" g) as [Hg|(Hg & _)].
    + rewrite !applyFilters_eq by (done || apply filterable_All).
      cbn [columns rows]. rewrite filter_filter. do 2 f_equal.
      apply List.filter_ext. intros r. unfold satisfies. cbn [sel_department sel_gender].
      rewrite !selects_All. by rewrite andb_true_r.
    + rewrite !applyFilters_raise_gender; (done || apply filterable_All).
  - intros view (Hd & Hg & ->)%applyFilters_Ok_inv.
    cbn [sel_department sel_gender] in Hd, Hg.
    rewrite (applyFilters_eq table (mkSelection All g))
      by (done || apply filterable_All).
    cbn [mbind result_bind].
    rewrite applyFilters_eq by (done || apply filterable_All).
    cbn [columns rows]. rewrite filter_filter. do 2 f_equal.
    apply List.filter_ext. intros r. unfold satisfies. cbn [sel_department sel_gender].
    rewrite !selects_All. rewrite andb_true_r. simpl. apply andb_comm.
Qed.

Lemma applyFilters_compose_witness :
  ∃ view,
    applyFilters staff (mkSelection (VStr "Sales") (VStr "M")) = Ok view
    ∧ (v ← applyFilters staff (mkSelection All (VStr "M"));
       applyFilters v (mkSelection (VStr "Sales") All)) = Ok view.
Proof.
  eexists. split; [reflexivity|].
  apply (proj2 (applyFilters_compose staff (VStr "Sales") (VStr "M"))).
  reflexivity.
Defined.

(** ** What a selector can pick *)

Lemma selector_options_strs table c strs :
  getitem table c = Ok (VStr <$> strs) →
  ∃ l, selector_options table c = Ok (All :: (VStr <$> l))
       ∧ (∀ x, x ∈ l ↔ x ∈ strs).
Proof.
  intros Hcol.
  destruct (unique_strs strs) as (u & Hu & Hnd & Hin).
  destruct (sorted_strs u Hnd) as (l & Hl & Hp & _).
  exists l. split.
  - unfold selector_options, distinctValues. rewrite Hcol. cbn [mbind result_bind].
    by rewrite Hu, Hl.
  - intros x. by rewrite Hp.
Qed.

Lemma selectbox_elem_of options choice :
  options ≠ [] → selectbox options choice ∈ options.
Proof.
  intros Hne. unfold selectbox. apply list_elem_of_In.
  destruct (nth_in_or_default choice options (hd VNaN options)) as [Hin|Heq];
    [done|rewrite Heq].
  destruct options; [done|]. by left.
Qed.

(** A string that occurs in a column selects at least one row. *)
Lemma selects_nonempty table c strs x :
  getitem table c = Ok (VStr <$> strs) →
  x ∈ strs →
  ∃ r, r ∈ rows table ∧ selects (columns table) c (VStr x) r = true.
Proof.
  unfold getitem, selects, field_of.
  destruct (column_index c (columns table)) as [i|]; [|done].
  intros [= Hcol] Hx.
  assert (VStr x ∈ cell i <$> rows table) as Hin.
  { rewrite Hcol. by apply list_elem_of_fmap_2. }
  apply list_elem_of_fmap in Hin as (r & Hr & Hin). exists r. split; [done|].
  destruct (py_ne (VStr x) All); [|done]. rewrite <- Hr. apply String.eqb_refl.
Qed.

(** The department selector alone, on a table whose departments are all
    strings. *)
Lemma department_pick_nonempty table strs choice :
  getitem table "Department" = Ok (VStr <$> strs) →
  rows table ≠ [] →
  ∃ options view,
    selector_options table "Department" = Ok options
    ∧ selectbox options choice ∈ options
    ∧ applyFilters table (mkSelection (selectbox options choice) All) = Ok view
    ∧ rows view ≠ [].
Proof.
  intros Hcol Hrows.
  destruct (selector_options_strs table _ strs Hcol) as (l & Hopts & Hl).
  pose proof (selectbox_elem_of (All :: (VStr <$> l)) choice) as Hpick.
  specialize (Hpick ltac:(done)).
  remember (selectbox (All :: (VStr <$> l)) choice) as d eqn:Hpicked.
  exists (All :: (VStr <$> l)),
    {| columns := columns table;
       rows := List.filter (satisfies (columns table) (mkSelection d All)) (rows table) |}.
  rewrite <- Hpicked. split_and!; [done|done| |].
  - apply applyFilters_eq; [|apply filterable_All].
    intros _. by eapply getitem_elem_of.
  - cbn [rows]. apply elem_of_cons in Hpick as [->|Hin].
    + by rewrite filter_true.
    + apply list_elem_of_fmap in Hin as (x & Hd & Hx). apply Hl in Hx.
      destruct (selects_nonempty table _ strs x Hcol Hx) as (r & Hr & Hsel).
      intros Hnil.
      assert (r ∈ List.filter
                (satisfies (columns table) (mkSelection d All)) (rows table)) as Hin.
      { apply elem_of_filter_bool. split; [done|]. unfold satisfies.
        cbn [sel_department sel_gender]. by rewrite Hd, Hsel, selects_All. }
      rewrite Hnil in Hin. by apply elem_of_nil in Hin.
Qed.

Lemma gender_pick_nonempty table strs choice :
  getitem table "Gender" = Ok (VStr <$> strs) →
  rows table ≠ [] →
  ∃ options view,
    selector_options table "Gender" = Ok options
    ∧ selectbox options choice ∈ options
    ∧ applyFilters table (mkSelection All (selectbox options choice)) = Ok view
    ∧ rows view ≠ [].
Proof.
  intros Hcol Hrows.
  destruct (selector_options_strs table _ strs Hcol) as (l & Hopts & Hl).
  pose proof (selectbox_elem_of (All :: (VStr <$> l)) choice) as Hpick.
  specialize (Hpick ltac:(done)).
  remember (selectbox (All :: (VStr <$> l)) choice) as g eqn:Hpicked.
  exists (All :: (VStr <$> l)),
    {| columns := columns table;
       rows := List.filter (satisfies (columns table) (mkSelection All g)) (rows table) |}.
  rewrite <- Hpicked. split_and!; [done|done| |].
  - apply applyFilters_eq; [apply filterable_All|].
    intros _. by eapply getitem_elem_of.
  - cbn [rows]. apply elem_of_cons in Hpick as [->|Hin].
    + by rewrite filter_true.
    + apply list_elem_of_fmap in Hin as (x & Hd & Hx). apply Hl in Hx.
      destruct (selects_nonempty table _ strs x Hcol Hx) as (r & Hr & Hsel).
      intros Hnil.
      assert (r ∈ List.filter
                (satisfies (columns table) (mkSelection All g)) (rows table)) as Hin.
      { apply elem_of_filter_bool. split; [done|]. unfold satisfies.
        cbn [sel_department sel_gender]. by rewrite Hd, Hsel, selects_All. }
      rewrite Hnil in Hin. by apply elem_of_nil in Hin.
Qed.

(** X4: one selector alone never empties the view.  On a table with rows
    whose departments (genders) are all strings, whatever the user picks
    in the department (gender) selector is one of its options, and
    filtering by that pick alone returns a view with at least one row.
    Only the two selectors together can select nothing. *)
Theorem single_pick_nonempty table ds gs choice :
  getitem table "Department" = Ok (VStr <$> ds) →
  getitem table "Gender" = Ok (VStr <$> gs) →
  rows table ≠ [] →
  (∃ options view,
     selector_options table "Department" = Ok options
     ∧ selectbox options choice ∈ options
     ∧ applyFilters table (mkSelection (selectbox options choice) All) = Ok view
     ∧ rows view ≠ [])
  ∧ (∃ options view,
       selector_options table "Gender" = Ok options
       ∧ selectbox options choice ∈ options
       ∧ applyFilters table (mkSelection All (selectbox options choice)) = Ok view
       ∧ rows view ≠ []).
Proof.
  intros Hd Hg Hrows. split.
  - by eapply department_pick_nonempty.
  - by eapply gender_pick_nonempty.
Qed.

Lemma single_pick_nonempty_witness :
  getitem survey "Department" = Ok (VStr <$> ["Eng"; "Eng"; "Sales"; "Sales"])
  ∧ getitem survey "Gender" = Ok (VStr <$> ["F"; "M"; "F"; "F"])
  ∧ rows survey ≠ []
  ∧ (∃ options view,
       selector_options survey "Department" = Ok options
       ∧ selectbox options 2 ∈ options
       ∧ applyFilters survey (mkSelection (selectbox options 2) All) = Ok view
       ∧ rows view ≠ [])
  ∧ (∃ options view,
       selector_options survey "Gender" = Ok options
       ∧ selectbox options 2 ∈ options
       ∧ applyFilters survey (mkSelection All (selectbox options 2)) = Ok view
       ∧ rows view ≠ []).
Proof.
  split_and!; [reflexivity|reflexivity|done|..];
    apply (single_pick_nonempty survey
             ["Eng"; "Eng"; "Sales"; "Sales"] ["F"; "M"; "F"; "F"] 2);
    (reflexivity || done).
Defined.

(** X5: a department that is called "All" cannot be isolated.  Whatever
    the user picks in the department selector, the view is the whole table
    or has no row of a department called "All": the pick "All" always
    means no constraint, also when it is the name of a department. *)
Theorem department_All_not_isolated table strs choice :
  getitem table "Department" = Ok (VStr <$> strs) →
  ∃ options view,
    selector_options table "Department" = Ok options
    ∧ applyFilters table (mkSelection (selectbox options choice) All) = Ok view
    ∧ (view = table
       ∨ ∀ r, r ∈ rows view → field_of (columns table) "Department" r ≠ All).
Proof.
  intros Hcol.
  destruct (selector_options_strs table _ strs Hcol) as (l & Hopts & Hl).
  pose proof (selectbox_elem_of (All :: (VStr <$> l)) choice) as Hpick.
  specialize (Hpick ltac:(done)).
  remember (selectbox (All :: (VStr <$> l)) choice) as d eqn:Hpicked.
  exists (All :: (VStr <$> l)),
    {| columns := columns table;
       rows := List.filter (satisfies (columns table) (mkSelection d All))
                 (rows table) |}.
  rewrite <- Hpicked. split_and!; [done| |].
  - apply applyFilters_eq; [|apply filterable_All].
    intros _. by eapply getitem_elem_of.
  - destruct (py_ne d All) eqn:Hne.
    + right. intros r [_ Hr]%elem_of_filter_bool. revert Hr.
      unfold satisfies, selects. cbn [sel_department sel_gender].
      rewrite Hne, andb_true_r. intros Hr Heq. rewrite Heq in Hr.
      unfold py_ne in Hne. destruct d as [x| |]; try done.
      unfold All in Hr, Hne. cbn [py_eq] in Hr, Hne.
      rewrite String.eqb_sym in Hr. by rewrite Hr in Hne.
    + left. rewrite filter_true; [by destruct table|].
      intros r. unfold satisfies, selects. cbn [sel_department sel_gender].
      by rewrite Hne.
Qed.

Lemma department_All_not_isolated_witness :
  getitem staff_all "Department" = Ok (VStr <$> ["All"; "Eng"; "All"])
  ∧ selector_options staff_all "Department" = Ok [All; All; VStr "Eng"]
  ∧ applyFilters staff_all (mkSelection (selectbox [All; All; VStr "Eng"] 1) All)
    = Ok staff_all
  ∧ ∃ options view,
      selector_options staff_all "Department" = Ok options
      ∧ applyFilters staff_all (mkSelection (selectbox options 1) All) = Ok view
      ∧ (view = staff_all
         ∨ ∀ r, r ∈ rows view →
                field_of (columns staff_all) "Department" r ≠ All).
Proof.
  split_and!; [reflexivity|reflexivity|reflexivity|].
  apply (department_All_not_isolated staff_all ["All"; "Eng"; "All"] 1).
  reflexivity.
Defined.

(** ** The profile counts *)

#[export] Instance by_count_total : Total by_count.
Proof. intros a b. unfold by_count. lia. Qed.

#[export] Instance by_count_trans : Transitive by_count.
Proof. intros a b c. unfold by_count. lia. Qed.

Lemma count_notna k s : k ≠ VNaN → count k (List.filter notna s) = count k s.
Proof.
  intros Hk. unfold count. rewrite filter_filter. f_equal.
  apply List.filter_ext. intros v. destruct v; simpl; [done|done|].
  by destruct k.
Qed.

Lemma count_pos k s : k ∈ s → (0 < count k s)%nat.
Proof.
  intros Hk. unfold count.
  assert (k ∈ List.filter (same_value k) s) as Hin.
  { apply elem_of_filter_bool. split; [done|apply same_value_refl]. }
  destruct (List.filter (same_value k) s); [by apply elem_of_nil in Hin|simpl; lia].
Qed.

Lemma value_counts_elem_of s k n :
  (k, n) ∈ value_counts s → k ∈ s ∧ k ≠ VNaN ∧ n = count k s ∧ (0 < n)%nat.
Proof.
  unfold value_counts. rewrite merge_sort_Permutation.
  intros (k' & [= -> ->] & Hk)%list_elem_of_fmap.
  apply unique_subset in Hk as Hin.
  apply elem_of_filter_bool in Hin as [Hin Hna].
  assert (k' ≠ VNaN) as Hne by (by intros ->).
  split_and!; [done|done|by rewrite count_notna|].
  apply count_pos, elem_of_filter_bool. by split.
Qed.

Lemma filter_fmap_bool {A B} (p : B → bool) (f : A → B) l :
  List.filter p (f <$> l) = f <$> List.filter (λ a, p (f a)) l.
Proof.
  induction l as [|a l IH]; [done|]. csimpl.
  destruct (p (f a)); csimpl; by rewrite IH.
Qed.

Lemma value_counts_match_one s v :
  v ∈ s → v ≠ VNaN →
  length (List.filter (λ kn, same_value kn.1 v) (value_counts s)) = 1%nat.
Proof.
  intros Hv Hna. unfold value_counts.
  rewrite (filter_length_Permutation _ _ _ (merge_sort_Permutation _ _)).
  rewrite filter_fmap_bool, length_fmap. cbn [fst].
  apply unique_match_one, elem_of_filter_bool. split; [done|]. by destruct v.
Qed.

(** X6: the profile counts.  [value_counts] lists the most frequent value
    first; every entry is a value of the series that is not missing, with
    the number of its occurrences, which is at least one; and every value
    of the series that is not missing has exactly one entry. *)
Theorem value_counts_entries s :
  StronglySorted by_count (value_counts s)
  ∧ (∀ k n, (k, n) ∈ value_counts s →
       k ∈ s ∧ k ≠ VNaN ∧ n = count k s ∧ (0 < n)%nat)
  ∧ (∀ v, v ∈ s → v ≠ VNaN →
       length (List.filter (λ kn, same_value kn.1 v) (value_counts s)) = 1%nat).
Proof.
  split_and!.
  - apply StronglySorted_merge_sort; apply _.
  - apply value_counts_elem_of.
  - apply value_counts_match_one.
Qed.

Lemma value_counts_length s : length (value_counts s) = nunique s.
Proof.
  unfold value_counts, nunique. by rewrite merge_sort_Permutation, length_fmap.
Qed.


Lemma filter_length_bound {A} (p : A → bool) l :
  (length (List.filter p l) <= length l)%nat.
Proof. induction l as [|a l IH]; simpl; [done|]. destruct (p a); simpl; lia. Qed.

Lemma unique_length s : (length (unique s) <= length s)%nat.
Proof.
  induction s as [|x s IH]; [done|]. cbn [unique length].
  pose proof (filter_length_bound (λ y, negb (same_value x y)) (unique s)). lia.
Qed.

Lemma nunique_le s : (nunique s <= length s)%nat.
Proof.
  unfold nunique. pose proof (unique_length (List.filter notna s)).
  pose proof (filter_length_bound notna s). lia.
Qed.

(** What the metric block shows, whenever it returns. *)
Lemma kpi_cards_inv view cards :
  kpi_cards view = Ok cards →
  ∃ sat perf prof,
    getitem view "LPA_Profile" = Ok prof
    ∧ cards = [Metric "Total Employees" (MInt (length (rows view)));
               Metric "Avg Satisfaction" (MStr sat);
               Metric "Avg Performance" (MStr perf);
               Metric "Profiles" (MInt (nunique prof));
               Markdown "---"].
Proof.
  unfold kpi_cards.
  destruct (getitem view "Satisfaction") as [s1|]; [|done]. cbn [mbind result_bind].
  destruct (mean s1) as [m1|]; [|done]. cbn [mbind result_bind].
  destruct (format_2f m1) as [sat|]; [|done]. cbn [mbind result_bind].
  destruct (getitem view "PerformanceScore") as [s2|]; [|done]. cbn [mbind result_bind].
  destruct (mean s2) as [m2|]; [|done]. cbn [mbind result_bind].
  destruct (format_2f m2) as [perf|]; [|done]. cbn [mbind result_bind].
  destruct (getitem view "LPA_Profile") as [prof|]; [|done]. cbn [mbind result_bind].
  intros [= <-]. by exists sat, perf, prof.
Qed.

(** X7: the metric cards agree with the first chart.  Whenever both are
    produced, the "Profiles" card shows the number of bars of the profile
    chart, the "Total Employees" card the number of rows of the view, and
    there are no more bars than rows. *)
Theorem profiles_card_counts_bars view cards data x y color axis_labels title :
  kpi_cards view = Ok cards →
  fig1 view = Ok (Bar data x y color axis_labels title) →
  Metric "Profiles" (MInt (length (rows data))) ∈ cards
  ∧ Metric "Total Employees" (MInt (length (rows view))) ∈ cards
  ∧ (length (rows data) <= length (rows view))%nat.
Proof.
  intros (sat & perf & prof & Hprof & ->)%kpi_cards_inv.
  unfold fig1. rewrite Hprof. cbn [mbind result_bind].
  unfold px_bar. rewrite check_columns_Ok.
  2:{ repeat constructor; in_list. }
  cbn [mbind result_bind]. intros [= <- _ _ _ _ _].
  cbn [rows reset_index_counts]. rewrite length_fmap, value_counts_length.
  split_and!; [in_list|in_list|].
  rewrite <- (getitem_length view _ prof Hprof). apply nunique_le.
Qed.

Lemma profiles_card_counts_bars_witness :
  ∃ cards data,
    kpi_cards survey = Ok cards
    ∧ fig1 survey
      = Ok (Bar data "index" "LPA_Profile" "index"
              [("index", "LPA Profile"); ("LPA_Profile", "Count")]
              "Employees Per Profile")
    ∧ Metric "Profiles" (MInt (length (rows data))) ∈ cards
    ∧ Metric "Total Employees" (MInt (length (rows survey))) ∈ cards
    ∧ (length (rows data) <= length (rows survey))%nat.
Proof.
  eexists _, _. split; [reflexivity|]. split; [reflexivity|].
  eapply profiles_card_counts_bars; reflexivity.
Defined.

(** ** The attrition frame *)

Lemma string_leb_refl a : String.leb a a = true.
Proof. by destruct (String.leb_total a a). Qed.

Lemma string_leb_cases a b :
  String.leb a b = true ↔ a = b ∨ String.compare a b = Lt.
Proof.
  split.
  - unfold String.leb. destruct (String.compare a b) eqn:Hc; [|by right|done].
    left. by apply String.compare_eq_iff.
  - intros [->|Hlt]; [apply string_leb_refl|]. unfold String.leb. by rewrite Hlt.
Qed.

Lemma string_leb_trans a b c :
  String.leb a b = true → String.leb b c = true → String.leb a c = true.
Proof.
  rewrite !string_leb_cases. intros [->|Hab] [->|Hbc]; auto.
  right. by eapply string_compare_trans.
Qed.

#[export] Instance key_order_total : Total key_order.
Proof.
  intros [s|p|] [t|q|]; unfold key_order; simpl; auto.
  - apply String.leb_total.
  - rewrite !Qle_bool_iff. destruct (Qlt_le_dec p q); [left|right]; lra.
Qed.

#[export] Instance key_order_trans : Transitive key_order.
Proof.
  intros [s|p|] [t|q|] [u|r|]; unfold key_order; simpl; try done.
  - apply string_leb_trans.
  - rewrite !Qle_bool_iff. apply Qle_trans.
Qed.

Lemma qsum_bounds lo hi l :
  Forall (λ x, lo <= x <= hi)%Q l →
  (lo * qlen l <= qsum l <= hi * qlen l)%Q.
Proof.
  induction 1 as [|x l [Hlo Hhi] _ [IHlo IHhi]].
  - change (qlen []) with 0%Q. change (qsum []) with 0%Q. lra.
  - rewrite qlen_cons. cbn [qsum foldr]. fold (qsum l). split; nra.
Qed.

Lemma qmean_bounds lo hi l :
  l ≠ [] → Forall (λ x, lo <= x <= hi)%Q l → (lo <= qmean l <= hi)%Q.
Proof.
  intros Hl [Hlo Hhi]%qsum_bounds.
  assert (0 < qlen l)%Q as Hpos by (destruct l; [done|apply qlen_pos]).
  unfold qmean. split.
  - by apply Qle_shift_div_l.
  - by apply Qle_shift_div_r.
Qed.

Lemma group_numbers_elem_of k by_ s q :
  q ∈ group_numbers k by_ s → VNum q ∈ s.
Proof.
  revert s. induction by_ as [|b by_ IH]; intros [|v s]; cbn [group_numbers];
    try (by intros ?%elem_of_nil).
  assert (q ∈ group_numbers k by_ s → VNum q ∈ v :: s) as Hrest.
  { intros ?%IH. by right. }
  destruct (same_value k b); [|done].
  destruct v as [t|p|]; try done.
  intros [->|?]%elem_of_cons; [by left|auto].
Qed.

(** X8: the rows of the attrition frame come in ascending order of
    profile: numbers by value, before strings by code point. *)
Theorem attr_data_sorted view prof attr :
  getitem view "LPA_Profile" = Ok prof →
  getitem view "Attrition" = Ok attr →
  numeric_series attr = true →
  ∃ data,
    attr_data view = Ok data
    ∧ StronglySorted key_order (cell 0 <$> rows data).
Proof.
  intros Hprof Hattr Hnum. eexists. split; [by apply attr_data_eq|].
  cbn [rows]. rewrite <- list_fmap_compose.
  assert ((cell 0 ∘ (λ k : value, [k; percent k prof attr])) <$> group_keys prof
          = group_keys prof) as ->.
  { apply list_eq. intros i. rewrite list_lookup_fmap.
    by destruct (group_keys prof !! i). }
  apply StronglySorted_merge_sort; apply _.
Qed.

Lemma attr_data_sorted_witness :
  getitem staff "LPA_Profile" = Ok [VNum 1; VNum 0; VNum 1; VNum 2]
  ∧ getitem staff "Attrition" = Ok [VNum 1; VNum 0; VNum 0; VNum 1]
  ∧ numeric_series [VNum 1; VNum 0; VNum 0; VNum 1] = true
  ∧ ∃ data,
      attr_data staff = Ok data
      ∧ StronglySorted key_order (cell 0 <$> rows data).
Proof.
  split_and!; [reflexivity..|].
  apply (attr_data_sorted staff [VNum 1; VNum 0; VNum 1; VNum 2]
           [VNum 1; VNum 0; VNum 0; VNum 1]); reflexivity.
Defined.

(** X9: with an attrition flag between 0 and 1 in every cell that is not
    missing, every percentage of the attrition frame is missing or lies
    between 0 and 100. *)
Theorem attr_data_percent view prof attr :
  getitem view "LPA_Profile" = Ok prof →
  getitem view "Attrition" = Ok attr →
  numeric_series attr = true →
  (∀ q, VNum q ∈ attr → 0 <= q <= 1)%Q →
  ∃ data,
    attr_data view = Ok data
    ∧ ∀ r, r ∈ rows data →
        cell 1 r = VNaN ∨ ∃ p, cell 1 r = VNum p ∧ (0 <= p <= 100)%Q.
Proof.
  intros Hprof Hattr Hnum Hflag. eexists. split; [by apply attr_data_eq|].
  cbn [rows]. intros r (k & -> & _)%list_elem_of_fmap.
  change (cell 1 [k; percent k prof attr]) with (percent k prof attr).
  unfold percent.
  destruct (group_numbers k prof attr) as [|x xs] eqn:Hg; [by left|].
  right. eexists. split; [done|].
  assert (0 <= qmean (x :: xs) <= 1)%Q as [H0 H1]; [|lra].
  apply qmean_bounds; [done|]. apply Forall_forall. intros q Hq.
  rewrite <- Hg in Hq. by apply Hflag, (group_numbers_elem_of k prof).
Qed.

Lemma attr_data_percent_witness :
  getitem staff "LPA_Profile" = Ok [VNum 1; VNum 0; VNum 1; VNum 2]
  ∧ getitem staff "Attrition" = Ok [VNum 1; VNum 0; VNum 0; VNum 1]
  ∧ numeric_series [VNum 1; VNum 0; VNum 0; VNum 1] = true
  ∧ (∀ q, VNum q ∈ [VNum 1; VNum 0; VNum 0; VNum 1] → 0 <= q <= 1)%Q
  ∧ ∃ data,
      attr_data staff = Ok data
      ∧ ∀ r, r ∈ rows data →
          cell 1 r = VNaN ∨ ∃ p, cell 1 r = VNum p ∧ (0 <= p <= 100)%Q.
Proof.
  assert (∀ q, VNum q ∈ [VNum 1; VNum 0; VNum 0; VNum 1] → 0 <= q <= 1)%Q as Hflag.
  { intros q Hq%list_elem_of_In. simpl in Hq.
    repeat destruct Hq as [Hq|Hq]; try (injection Hq as <-; lra). done. }
  split_and!; [reflexivity..|exact Hflag|].
  apply (attr_data_percent staff [VNum 1; VNum 0; VNum 1; VNum 2]
           [VNum 1; VNum 0; VNum 0; VNum 1]); (reflexivity || exact Hflag).
Defined.

Lemma mapM_Raise {A B} (f : A → result B) l :
  (∀ a, (∃ b, f a = Ok b) ∨ (∃ e, f a = Raise e)) →
  (∃ a e, a ∈ l ∧ f a = Raise e) →
  ∃ a e, a ∈ l ∧ f a = Raise e ∧ mapM f l = Raise e.
Proof.
  intros Hf. induction l as [|a l IH]; intros (a' & e' & Ha' & He').
  - by apply elem_of_nil in Ha'.
  - cbn [mapM]. destruct (Hf a) as [[b Hb]|[e He]].
    + rewrite Hb. cbn [mbind result_bind].
      apply elem_of_cons in Ha' as [->|Ha']; [congruence|].
      destruct IH as (a0 & e0 & Ha0 & He0 & Hm); [by exists a', e'|].
      exists a0, e0. split_and!; [by right|done|]. by rewrite Hm.
    + exists a, e. split_and!; [by left|done|]. by rewrite He.
Qed.

(** ** The correlation matrix *)






(** *** Binary64 *)

















(** *** A constant column *)











(** *** The array of entries *)












(** A profile written as text is not a numeric column: it is left out of
    the matrix, which is then fourteen by fourteen. *)
Example corr_text_profile :
  ∃ m,
    corr (dtypes staff_text) staff_text = Ok m
    ∧ labels m = take 14 num_cols
    ∧ length (entries m) = 14%nat.
Proof. eexists. split; [vm_compute; reflexivity|]. split; reflexivity. Qed.



(** ** The empty view *)




(** A table that was uploaded with its header only has no numeric column:
    the matrix has no entry at all. *)
Example corr_header_only :
  corr (dtypes {| columns := num_cols; rows := [] |})
    {| columns := num_cols; rows := [] |}
  = Ok {| labels := []; entries := [] |}.
Proof. reflexivity. Qed.

(** X11: the heat map needs all fifteen columns.  On a view that lacks
    one of them the correlation call raises [KeyError] for a column of the
    list that the view does not have, and so does the chart. *)
Theorem corr_missing_column dts view :
  (∃ c, c ∈ num_cols ∧ (c ∉ columns view)) →
  ∃ c, c ∈ num_cols ∧ (c ∉ columns view)
       ∧ corr dts view = Raise (KeyError c)
       ∧ fig6 dts view = Raise (KeyError c).
Proof.
  intros (c & Hc & Hmiss).
  destruct (mapM_Raise
    (λ c, match column_index c (columns view) with
          | Some i => Ok i
          | None => Raise (KeyError c)
          end) num_cols) as (c0 & e & Hc0 & He & Hm).
  { intros a. destruct (column_index a (columns view)); [left|right]; by eexists. }
  { exists c, (KeyError c). split; [done|]. by rewrite column_index_None. }
  simpl in He. destruct (column_index c0 (columns view)) as [i|] eqn:Hi; [done|].
  injection He as <-. exists c0.
  assert (corr dts view = Raise (KeyError c0)) as Hcorr.
  { unfold corr, getitem_cols. by rewrite Hm. }
  split_and!; [done| |done|].
  - intros Hin. destruct (column_index_Some _ _ Hin) as [? Hs]. congruence.
  - unfold fig6. by rewrite Hcorr.
Qed.

Lemma corr_missing_column_witness :
  (∃ c, c ∈ num_cols ∧ (c ∉ columns staff))
  ∧ corr (dtypes staff) staff = Raise (KeyError "Age")
  ∧ ∃ c, c ∈ num_cols ∧ (c ∉ columns staff)
         ∧ corr (dtypes staff) staff = Raise (KeyError c)
         ∧ fig6 (dtypes staff) staff = Raise (KeyError c).
Proof.
  assert (∃ c, c ∈ num_cols ∧ (c ∉ columns staff)) as Hmiss.
  { exists "Age". split; [in_list|].
    intros H%list_elem_of_In. simpl in H.
    repeat destruct H as [H|H]; try discriminate H. done. }
  split_and!; [exact Hmiss|reflexivity
              |exact (corr_missing_column (dtypes staff) staff Hmiss)].
Defined.

(** ** The whole pass *)

Lemma visuals_inv dts view charts :
  visuals dts view = Ok charts →
  ∃ f1 f2 f3 f4 f5 f6,
    charts
    = [Subheader "1️⃣ LPA Profile Distribution"; PlotlyChart f1;
       Subheader "2️⃣ Department Distribution"; PlotlyChart f2;
       Subheader "3️⃣ Performance vs Satisfaction"; PlotlyChart f3;
       Subheader "4️⃣ Stress Level Distribution"; PlotlyChart f4;
       Subheader "5️⃣ Work-Life Balance by Department"; PlotlyChart f5;
       Subheader "6️⃣ Correlation Heatmap (Numeric Features)"; PlotlyChart f6].
Proof.
  unfold visuals.
  destruct (fig1 view) as [f1|]; [|done]. cbn [mbind result_bind].
  destruct (fig2 view) as [f2|]; [|done]. cbn [mbind result_bind].
  destruct (fig3 view) as [f3|]; [|done]. cbn [mbind result_bind].
  destruct (fig4 view) as [f4|]; [|done]. cbn [mbind result_bind].
  destruct (fig5 view) as [f5|]; [|done]. cbn [mbind result_bind].
  destruct (fig6 dts view) as [f6|]; [|done]. cbn [mbind result_bind].
  intros [= <-]. by exists f1, f2, f3, f4, f5, f6.
Qed.

Lemma visual7_inv view l :
  visual7 view = Ok l →
  ("Attrition" ∈ columns view
   ∧ ∃ f7, l = [Subheader "7️⃣ Attrition Rate by LPA Profile"; PlotlyChart f7])
  ∨ (("Attrition" ∉ columns view)
     ∧ l = [Warning "Attrition column not found in dataset."]).
Proof.
  unfold visual7. case_bool_decide as Hattr.
  - destruct (attr_data view) as [d|]; [|done]. cbn [mbind result_bind].
    destruct (fig7 d) as [f7|]; [|done]. cbn [mbind result_bind].
    intros [= <-]. left. split; [done|by exists f7].
  - intros [= <-]. by right.
Qed.

(** X12: the page of a pass that runs to its end.  Whenever the pass
    returns a page for a table and a state of the two selectors, the page
    has seven charts when the table has an [Attrition] column, and six
    charts and the warning when it has not; it shows a head count that is
    at most the number of rows of the table; and it ends with the success
    notice. *)
Theorem dashboard_page table dept_choice gender_choice page :
  dashboard (Some table) dept_choice gender_choice = Ok page →
  length (List.filter is_chart page)
  = (if bool_decide ("Attrition" ∈ columns table) then 7 else 6)%nat
  ∧ (Warning "Attrition column not found in dataset." ∈ page
     ↔ "Attrition" ∉ columns table)
  ∧ last page = Some (Success "Dashboard Loaded Successfully!")
  ∧ ∃ n, Metric "Total Employees" (MInt n) ∈ page
         ∧ (n <= length (rows table))%nat.
Proof.
  unfold dashboard.
  destruct (selector_options table "Department") as [dopts|]; [|done].
  cbn [mbind result_bind].
  destruct (selector_options table "Gender") as [gopts|]; [|done].
  cbn [mbind result_bind].
  set (sel := mkSelection _ _).
  destruct (applyFilters table sel) as [view|] eqn:Hview; [|done].
  cbn [mbind result_bind].
  destruct (kpi_cards view) as [kpi|] eqn:Hkpi; [|done]. cbn [mbind result_bind].
  destruct (visuals (dtypes table) view) as [charts|] eqn:Hvis; [|done].
  cbn [mbind result_bind].
  destruct (visual7 view) as [l7|] eqn:H7; [|done]. cbn [mbind result_bind].
  intros [= <-].
  apply kpi_cards_inv in Hkpi as (sat & perf & prof & _ & ->).
  apply visuals_inv in Hvis as (f1 & f2 & f3 & f4 & f5 & f6 & ->).
  apply applyFilters_Ok_inv in Hview as (_ & _ & Hv).
  assert (length (rows view) <= length (rows table))%nat as Hlen.
  { rewrite Hv. apply filter_length_bound. }
  assert (columns view = columns table) as Hc by (by rewrite Hv).
  apply visual7_inv in H7 as [[Hattr [f7 ->]]|[Hattr ->]]; rewrite Hc in Hattr.
  - rewrite bool_decide_eq_true_2 by done. split_and!.
    + reflexivity.
    + split; [|done]. intros H%list_elem_of_In. simpl in H.
      repeat destruct H as [H|H]; try discriminate H. done.
    + reflexivity.
    + exists (length (rows view)). split; [in_list|done].
  - rewrite bool_decide_eq_false_2 by done. split_and!.
    + reflexivity.
    + split; [done|]. intros _. in_list.
    + reflexivity.
    + exists (length (rows view)). split; [in_list|done].
Qed.

Lemma dashboard_page_witness :
  ∃ page,
    dashboard (Some survey_flagged) 1 2 = Ok page
    ∧ length (List.filter is_chart page) = 7%nat
    ∧ last page = Some (Success "Dashboard Loaded Successfully!")
    ∧ Metric "Total Employees" (MInt 1) ∈ page.
Proof.
  eexists. split; [vm_compute; reflexivity|].
  match goal with
  | |- context [List.filter is_chart ?p] =>
      destruct (dashboard_page survey_flagged 1 2 p) as (Hn & _ & Hlast & _);
        [vm_compute; reflexivity|]
  end.
  split_and!; [exact Hn|exact Hlast|in_list].
Defined.

(** X13: a table without a selector column fails at the selector.  With no
    [Department] column the pass raises [KeyError] for it whatever the
    selectors say, before anything is filtered or drawn; with string
    departments and no [Gender] column it raises [KeyError] for that. *)
Theorem dashboard_missing_selector_column table dept_choice gender_choice :
  (("Department" ∉ columns table) →
   dashboard (Some table) dept_choice gender_choice
   = Raise (KeyError "Department"))
  ∧ ((∃ ds, getitem table "Department" = Ok (VStr <$> ds)) →
     ("Gender" ∉ columns table) →
     dashboard (Some table) dept_choice gender_choice
     = Raise (KeyError "Gender")).
Proof.
  split.
  - intros Hd. unfold dashboard, selector_options, distinctValues, getitem.
    by rewrite (column_index_None _ _ Hd).
  - intros [ds Hds] Hg.
    destruct (selector_options_strs table _ ds Hds) as (l & Hopts & _).
    unfold dashboard. rewrite Hopts. cbn [mbind result_bind].
    unfold selector_options, distinctValues, getitem.
    by rewrite (column_index_None _ _ Hg).
Qed.

Lemma dashboard_missing_selector_column_witness :
  ("Department" ∉ columns staff_text)
  ∧ dashboard (Some staff_text) 0 0 = Raise (KeyError "Department")
  ∧ (∃ ds, getitem {| columns := ["Department"]; rows := [[VStr "Eng"]] |}
             "Department" = Ok (VStr <$> ds))
  ∧ ("Gender" ∉ ["Department"])
  ∧ dashboard (Some {| columns := ["Department"]; rows := [[VStr "Eng"]] |}) 0 0
    = Raise (KeyError "Gender").
Proof.
  assert ("Department" ∉ columns staff_text) as H1.
  { intros H%list_elem_of_In. simpl in H.
    repeat destruct H as [H|H]; try discriminate H. done. }
  assert ("Gender" ∉ ["Department"]) as H2.
  { intros H%list_elem_of_In. simpl in H. by destruct H as [[=]|[]]. }
  assert (∃ ds, getitem {| columns := ["Department"]; rows := [[VStr "Eng"]] |}
                  "Department" = Ok (VStr <$> ds)) as H3.
  { by exists ["Eng"]. }
  split_and!; [exact H1| |exact H3|exact H2|].
  - exact (proj1 (dashboard_missing_selector_column staff_text 0 0) H1).
  - exact (proj2 (dashboard_missing_selector_column
                    {| columns := ["Department"]; rows := [[VStr "Eng"]] |} 0 0)
             H3 H2).
Defined.

(** ** A selector over strings and blanks *)

Lemma py_lt_mixed y x : is_str y ≠ is_str x → py_lt y x = Raise TypeError.
Proof. by destruct y, x. Qed.

Lemma insert_sorted_Raise x l e : insert_sorted x l = Raise e → e = TypeError.
Proof.
  induction l as [|y l IH]; [done|]. cbn [insert_sorted].
  destruct (py_lt y x) as [[|]|e'] eqn:Hlt; cbn [mbind result_bind]; [|done|].
  - destruct (insert_sorted x l) as [l'|e'']; [done|].
    cbn [mbind result_bind]. intros [= <-]. by apply IH.
  - intros [= <-]. destruct y, x; simpl in Hlt; congruence.
Qed.

Lemma insert_sorted_Permutation x l s : insert_sorted x l = Ok s → s ≡ₚ x :: l.
Proof.
  revert s. induction l as [|y l IH]; intros s; [by intros [= <-]|].
  cbn [insert_sorted].
  destruct (py_lt y x) as [[|]|e'] eqn:Hlt; cbn [mbind result_bind]; [| |done].
  - destruct (insert_sorted x l) as [l'|e'']; [|done].
    cbn [mbind result_bind]. intros [= <-]. rewrite (IH l' eq_refl).
    apply Permutation_swap.
  - by intros [= <-].
Qed.

Lemma sorted_Raise l e : sorted l = Raise e → e = TypeError.
Proof.
  induction l as [|x l IH]; [done|]. cbn [sorted].
  destruct (sorted l) as [s|e']; cbn [mbind result_bind].
  - apply insert_sorted_Raise.
  - intros [= <-]. by apply IH.
Qed.

Lemma sorted_Permutation l s : sorted l = Ok s → s ≡ₚ l.
Proof.
  revert s. induction l as [|x l IH]; intros s; [by intros [= <-]|].
  cbn [sorted]. destruct (sorted l) as [s'|e']; [|done].
  cbn [mbind result_bind]. intros Hs%insert_sorted_Permutation.
  by rewrite Hs, (IH s' eq_refl).
Qed.

(** Sorting a list that holds a string and a float raises. *)
Lemma sorted_mixed l a b :
  a ∈ l → b ∈ l → is_str a = true → is_str b = false →
  sorted l = Raise TypeError.
Proof.
  revert a b. induction l as [|x l IH]; intros a b Ha Hb Hsa Hsb;
    [by apply elem_of_nil in Ha|].
  cbn [sorted]. destruct (sorted l) as [s|e] eqn:Hs; cbn [mbind result_bind].
  2:{ by rewrite (sorted_Raise l e Hs). }
  apply sorted_Permutation in Hs as Hp.
  assert (∃ y, y ∈ l ∧ is_str y ≠ is_str x) as (y & Hy & Hxy).
  { apply elem_of_cons in Ha as [->|Ha], Hb as [->|Hb].
    - congruence.
    - exists b. split; [done|congruence].
    - exists a. split; [done|congruence].
    - by specialize (IH a b Ha Hb Hsa Hsb). }
  assert (Forall (λ z, is_str z = is_str y) l) as Hkind.
  { apply Forall_forall. intros z Hz.
    destruct (is_str z) eqn:Ez, (is_str y) eqn:Ey; try done.
    - by specialize (IH z y Hz Hy Ez Ey).
    - by specialize (IH y z Hy Hz Ey Ez). }
  rewrite <- Hp in Hkind, Hy.
  destruct s as [|z s]; [by apply elem_of_nil in Hy|].
  apply Forall_cons in Hkind as [Hz _].
  cbn [insert_sorted]. rewrite py_lt_mixed; [done|congruence].
Qed.

Lemma unique_same s a : a ∈ s → ∃ u, u ∈ unique s ∧ same_value u a = true.
Proof.
  intros Ha. pose proof (unique_match_one s a Ha) as Hone.
  destruct (List.filter (λ k, same_value k a) (unique s)) as [|u l] eqn:Hf;
    [done|].
  assert (u ∈ List.filter (λ k, same_value k a) (unique s)) as Hu.
  { rewrite Hf. by left. }
  apply elem_of_filter_bool in Hu. by exists u.
Qed.

Lemma same_value_is_str u a : same_value u a = true → is_str u = is_str a.
Proof. by destruct u, a. Qed.

(** X15: a blank among the departments stops the pass.  When a selector
    column holds a string and also a cell that is not a string (a blank
    cell is read as NaN), building the options raises [TypeError]: the
    two cannot be compared.  For [Department] the whole pass raises it,
    whatever the selectors say. *)
Theorem selector_mixed_TypeError table c s a b :
  getitem table c = Ok s →
  a ∈ s → is_str a = true →
  b ∈ s → is_str b = false →
  selector_options table c = Raise TypeError
  ∧ (c = "Department" →
     ∀ dept_choice gender_choice,
       dashboard (Some table) dept_choice gender_choice = Raise TypeError).
Proof.
  intros Hs Ha Hsa Hb Hsb.
  destruct (unique_same s a Ha) as (ua & Hua & Hsame_a).
  destruct (unique_same s b Hb) as (ub & Hub & Hsame_b).
  apply same_value_is_str in Hsame_a, Hsame_b.
  assert (sorted (unique s) = Raise TypeError) as Hsorted.
  { apply (sorted_mixed _ ua ub); congruence. }
  assert (selector_options table c = Raise TypeError) as Hopts.
  { unfold selector_options, distinctValues. rewrite Hs. cbn [mbind result_bind].
    by rewrite Hsorted. }
  split; [done|]. intros -> dc gc. unfold dashboard. by rewrite Hopts.
Qed.

Lemma selector_mixed_TypeError_witness :
  getitem {| columns := ["Department"]; rows := [[VStr "Eng"]; [VNaN]] |}
    "Department" = Ok [VStr "Eng"; VNaN]
  ∧ selector_options
      {| columns := ["Department"]; rows := [[VStr "Eng"]; [VNaN]] |} "Department"
    = Raise TypeError
  ∧ dashboard
      (Some {| columns := ["Department"]; rows := [[VStr "Eng"]; [VNaN]] |}) 0 0
    = Raise TypeError.
Proof.
  destruct (selector_mixed_TypeError
              {| columns := ["Department"]; rows := [[VStr "Eng"]; [VNaN]] |}
              "Department" [VStr "Eng"; VNaN] (VStr "Eng") VNaN)
    as [H1 H2]; [reflexivity|in_list|reflexivity|in_list|reflexivity|].
  split_and!; [reflexivity|exact H1|exact (H2 eq_refl 0%nat 0%nat)].
Defined.
